(** * Student API (server.js): a shallow embedding of the Express handlers

    The server exposes five operations on the [students] table and one
    proxy route.  Each handler is written below in a small state-and-exception
    monad, in the order of the JavaScript statements it embeds.  The packages
    the server calls (validator.js, sanitize-html, the storage client and the
    storage engine's text-to-number comparison) are an interface, [Library];
    every result on the handlers holds for every implementation of it. *)

From Stdlib Require Import ZArith List String Ascii Bool Lia DecimalString
  Permutation.
Import ListNotations.
Local Open Scope string_scope.
Local Open Scope Z_scope.

(** ** JavaScript values carried by a request body *)

(** The scalar JSON values a body field can hold; [JUndefined] is the absent
    field.  [JNum n] is a number that is the integer [n].  JavaScript numbers
    are doubles: every integer up to [2^53 - 1] in size is a number of its
    own and [String] prints it in plain decimal, which is what the
    definitions below follow; [safe_integer] marks that range, and results
    that depend on the digits of a number assume it.  Fractions, arrays and
    objects are not covered. *)
Inductive jsval : Type :=
| JUndefined
| JNull
| JBool (b : bool)
| JNum (n : Z)
| JStr (s : string).

(** [Number.isSafeInteger(n)]. *)
Definition safe_integer (n : Z) : bool :=
  Z.abs n <=? 2 ^ 53 - 1.

(** [String(n)] for a safe integer [n]: its decimal digits, with a minus sign
    when negative.  (From [1e21] on JavaScript prints an exponent instead.) *)
Definition String_of_Z (n : Z) : string :=
  NilZero.string_of_int (Z.to_int n).

(** JavaScript's [String(v)]. *)
Definition String_of (v : jsval) : string :=
  match v with
  | JUndefined => "undefined"
  | JNull => "null"
  | JBool true => "true"
  | JBool false => "false"
  | JNum n => String_of_Z n
  | JStr s => s
  end.

(** express-validator hands every standard validator the field as text:
    [null] and [undefined] become the empty text, the rest goes through
    [String]. *)
Definition toString (v : jsval) : string :=
  match v with
  | JUndefined | JNull => ""
  | _ => String_of v
  end.

(** ** The packages behind [require] *)

Class Library : Type := {
  (** validator.js [isInt], as [param('id').isInt()] and [body('age').isInt()] call it *)
  validator_isInt : string -> bool;
  (** validator.js [isEmail] *)
  validator_isEmail : string -> bool;
  (** sanitize-html with its default options *)
  sanitizeHtml : string -> string;
  (** the number the storage engine reads in a text bound to an integer column *)
  sql_number : string -> Z;
  (** what [JSON.stringify] throws on the [insertId] the storage client gives:
      nothing when it is a number, a [TypeError] message when it is a BigInt *)
  insertId_json_error : option string
}.

(** ** Requests and responses *)

Record request : Type := {
  params_id : string;            (* req.params.id *)
  body_name : jsval;             (* req.body.name *)
  body_email : jsval;            (* req.body.email *)
  body_age : jsval;              (* req.body.age *)
  query_keyword : option string  (* req.query.keyword *)
}.

Inductive location : Type := InBody | InParams.

(** One entry of [errors.array()]. *)
Record verror : Type := {
  v_location : location;
  v_path : string;
  v_msg : string
}.

(** A row of [students(id, name, email, age)]. *)
Record student : Type := {
  st_id : Z;
  st_name : string;
  st_email : string;
  st_age : option Z
}.

(** The age of a row as [res.json] writes it: a number, or [null]. *)
Definition age_json (r : student) : jsval :=
  match st_age r with
  | Some n => JNum n
  | None => JNull
  end.

(** What a handler passes to [res.json]. *)
Inductive payload : Type :=
| PRows (rows : list student)
| PRow (row : student)
| PMessage (message : string)
| PCreated (message : string) (studentId : Z)
| PError (error : string)
| PErrors (errors : list verror)
| PData (data : string).

Record response : Type := {
  status : nat;
  sent : payload
}.

(** ** Validation chains (express-validator) *)

Inductive check : Type := IsString | NotEmpty | IsEmail | IsInt.

Record chain : Type := {
  c_location : location;
  c_field : string;
  c_checks : list (check * string)
}.

Definition body (f : string) : chain :=
  {| c_location := InBody; c_field := f; c_checks := [] |}.

Definition param (f : string) : chain :=
  {| c_location := InParams; c_field := f; c_checks := [] |}.

(** A validator joins the chain with the default message. *)
Definition validate_with (k : check) (c : chain) : chain :=
  {| c_location := c_location c; c_field := c_field c;
     c_checks := c_checks c ++ [(k, "Invalid value")] |}.

Definition isString : chain -> chain := validate_with IsString.
Definition notEmpty : chain -> chain := validate_with NotEmpty.
Definition isEmail : chain -> chain := validate_with IsEmail.
Definition isInt : chain -> chain := validate_with IsInt.

(** [withMessage] sets the message of the last validator of the chain only. *)
Definition withMessage (m : string) (c : chain) : chain :=
  {| c_location := c_location c; c_field := c_field c;
     c_checks := match rev (c_checks c) with
                 | (k, _) :: earlier => rev earlier ++ [(k, m)]
                 | [] => []
                 end |}.

Notation "c '.>' f" := (f c) (at level 45, left associativity, only parsing).

(** The value a chain looks at. *)
Definition field_value (req : request) (loc : location) (f : string) : jsval :=
  match loc with
  | InParams => if (f =? "id")%string then JStr (params_id req) else JUndefined
  | InBody =>
      if (f =? "name")%string then body_name req
      else if (f =? "email")%string then body_email req
      else if (f =? "age")%string then body_age req
      else JUndefined
  end.

Section Validation.
Context {L : Library}.

Definition passes (k : check) (v : jsval) : bool :=
  match k with
  | IsString => match v with JStr _ => true | _ => false end
  | NotEmpty => negb (toString v =? "")%string
  | IsEmail => validator_isEmail (toString v)
  | IsInt => validator_isInt (toString v)
  end.

(** Every validator of a chain runs (there is no [bail]); each failure adds
    one error. *)
Definition run_chain (req : request) (c : chain) : list verror :=
  let v := field_value req (c_location c) (c_field c) in
  flat_map (fun km : check * string =>
              if passes (fst km) v then []
              else [{| v_location := c_location c; v_path := c_field c;
                       v_msg := snd km |}])
           (c_checks c).

(** [validationResult(req).array()] after the chains of a route have run. *)
Definition validationResult (chains : list chain) (req : request) : list verror :=
  flat_map (run_chain req) chains.

End Validation.

(** The errors the routes of the server can report. *)
Definition id_error : verror :=
  {| v_location := InParams; v_path := "id";
     v_msg := "Student ID must be an integer" |}.

Definition name_type_error : verror :=
  {| v_location := InBody; v_path := "name"; v_msg := "Invalid value" |}.

Definition name_error : verror :=
  {| v_location := InBody; v_path := "name"; v_msg := "Name is required" |}.

Definition email_error : verror :=
  {| v_location := InBody; v_path := "email"; v_msg := "Invalid email" |}.

Definition age_error : verror :=
  {| v_location := InBody; v_path := "age"; v_msg := "Age must be an integer" |}.

Definition isEmpty (errors : list verror) : bool :=
  match errors with [] => true | _ :: _ => false end.

(** ** Storage *)

(** The five statements the server sends, with their bound parameters. *)
Inductive statement : Type :=
| SelectAll                                            (* SELECT * FROM students *)
| SelectById (id : string)                             (* ... WHERE id = ? *)
| InsertStudent (name email : string) (age : jsval)    (* INSERT ... VALUES (?, ?, ?) *)
| UpdateEmail (email : string) (id : string)           (* UPDATE ... SET email = ? WHERE id = ? *)
| DeleteById (id : string).                            (* DELETE ... WHERE id = ? *)

Inductive qresult : Type :=
| Rows (found : list student)
| OkPacket (affectedRows : nat) (insertId : Z).

Definition rows_of (r : qresult) : list student :=
  match r with Rows l => l | OkPacket _ _ => [] end.

Definition insertId_of (r : qresult) : Z :=
  match r with Rows _ => 0 | OkPacket _ i => i end.

(** Modelled from the spec: the schema is not part of the sources; section 6
    gives it as [students(id PK autogenerated, name, email, age)] and section 3
    has [id] generated by storage on insert and never reused, and [age] an
    integer.  The table is the rows in insertion order with the next key. *)
Record database : Type := {
  rows : list student;
  auto_increment : Z
}.

Section Storage.
Context {L : Library}.

(** A value bound to the integer column [age]. *)
Definition sql_integer (v : jsval) : option Z :=
  match v with
  | JUndefined | JNull => None
  | JBool b => Some (if b then 1 else 0)
  | JNum n => Some n
  | JStr s => Some (sql_number s)
  end.

(** [WHERE id = ?] with a text parameter. *)
Definition id_is (key : string) (r : student) : bool :=
  st_id r =? sql_number key.

Definition set_email (e : string) (r : student) : student :=
  {| st_id := st_id r; st_name := st_name r; st_email := e; st_age := st_age r |}.

Definition exec (q : statement) (d : database) : database * qresult :=
  match q with
  | SelectAll => (d, Rows (rows d))
  | SelectById key => (d, Rows (filter (id_is key) (rows d)))
  | InsertStudent n e a =>
      let i := auto_increment d in
      ({| rows := rows d ++ [{| st_id := i; st_name := n; st_email := e;
                                st_age := sql_integer a |}];
          auto_increment := i + 1 |},
       OkPacket 1 i)
  | UpdateEmail e key =>
      ({| rows := map (fun r => if id_is key r then set_email e r else r) (rows d);
          auto_increment := auto_increment d |},
       OkPacket (List.length (filter (id_is key) (rows d))) 0)
  | DeleteById key =>
      ({| rows := filter (fun r => negb (id_is key r)) (rows d);
          auto_increment := auto_increment d |},
       OkPacket (List.length (filter (id_is key) (rows d))) 0)
  end.

End Storage.

(** Every key in the table was handed out by the counter. *)
Definition db_wf (d : database) : bool :=
  forallb (fun r => st_id r <? auto_increment d) (rows d).

(** ** The world a handler runs in *)

(** What a handler does that can be observed from outside, in order. *)
Inductive event : Type :=
| Acquire                     (* pool.getConnection() resolved *)
| Query (q : statement)       (* conn.query(...) was issued *)
| Release                     (* conn.release() *)
| HttpGet (url : string)      (* axios.get(url) was issued *)
| Respond (r : response).     (* res.json(...) *)

Record world : Type := {
  students : database;        (* the table behind the pool *)
  in_use : nat;               (* connections checked out of the pool *)
  trace : list event
}.

(** What the outside decides for one request: whether the pool hands out a
    connection, whether the statement fails, and what the remote function
    answers ([inl] is a rejected call). *)
Record env : Type := {
  connect_error : option string;
  query_error : option string;
  remote : string -> string + string
}.

(** An [async] body: it reads the environment, changes the world and either
    throws ([inl], the message of the error) or returns.  The world survives
    a throw. *)
Definition M (A : Type) : Type := env -> world -> (string + A) * world.

Definition ret {A : Type} (a : A) : M A := fun _ w => (inr a, w).

Definition bind {A B : Type} (m : M A) (k : A -> M B) : M B :=
  fun E w =>
    match m E w with
    | (inr a, w') => k a E w'
    | (inl err, w') => (inl err, w')
    end.

Definition throw {A : Type} (err : string) : M A := fun _ w => (inl err, w).

Definition try_catch {A : Type} (m : M A) (handler : string -> M A) : M A :=
  fun E w =>
    match m E w with
    | (inr a, w') => (inr a, w')
    | (inl err, w') => handler err E w'
    end.

Notation "x <- m ;; k" := (bind m (fun x => k))
  (at level 61, m at next level, right associativity).
Notation "m ;; k" := (bind m (fun _ => k))
  (at level 61, right associativity).
Notation "'try' m 'catch' h" := (try_catch m h) (at level 62, m at level 61).

Definition emit (e : event) (w : world) : world :=
  {| students := students w; in_use := in_use w; trace := trace w ++ [e] |}.

Section Server.
Context {L : Library}.

(** [await pool.getConnection()] *)
Definition pool_getConnection : M unit :=
  fun E w =>
    match connect_error E with
    | Some err => (inl err, w)
    | None =>
        (inr tt, {| students := students w; in_use := S (in_use w);
                    trace := trace w ++ [Acquire] |})
    end.

(** [await conn.query(sql, params)]: a failed statement changes no row. *)
Definition conn_query (q : statement) : M qresult :=
  fun E w =>
    let w1 := emit (Query q) w in
    match query_error E with
    | Some err => (inl err, w1)
    | None =>
        let (d, r) := exec q (students w1) in
        (inr r, {| students := d; in_use := in_use w1; trace := trace w1 |})
    end.

(** [conn.release()] *)
Definition conn_release : M unit :=
  fun _ w =>
    (inr tt, {| students := students w; in_use := Nat.pred (in_use w);
                trace := trace w ++ [Release] |}).

(** [res.status(code).json(p)], for a payload made of texts, numbers and rows,
    which JSON carries. *)
Definition res_status_json (code : nat) (p : payload) : M response :=
  fun _ w =>
    let r := {| status := code; sent := p |} in
    (inr r, emit (Respond r) w).

(** [res.json(p)]: the status stays at its default. *)
Definition res_json (p : payload) : M response := res_status_json 200 p.

(** [await axios.get(url)] *)
Definition axios_get (url : string) : M string :=
  fun E w =>
    let w1 := emit (HttpGet url) w in
    match remote E url with
    | inr data => (inr data, w1)
    | inl err => (inl err, w1)
    end.

(** [res.status(code).json({ message, studentId })] with the [insertId] of the
    storage client: [res.json] serializes its argument, and throws when the
    client gave the id as a value JSON cannot carry. *)
Definition res_status_json_id (code : nat) (message : string) (studentId : Z) :
    M response :=
  match insertId_json_error with
  | Some err => throw err
  | None => res_status_json code (PCreated message studentId)
  end.

(** [sanitizeHtml(v)] on a body field: the package answers [''] to [null] and
    [undefined] and reads the rest as text. *)
Definition sanitize (v : jsval) : string :=
  match v with
  | JUndefined | JNull => ""
  | _ => sanitizeHtml (String_of v)
  end.

(** [app.get('/students', ...)] *)
Definition get_students (req : request) : M response :=
  try (
    pool_getConnection ;;
    result <- conn_query SelectAll ;;
    conn_release ;;
    res_json (PRows (rows_of result))
  ) catch (fun err =>
    res_status_json 500 (PError err)).

(** [app.get('/students/:id', ...)] *)
Definition get_student (req : request) : M response :=
  let errors := validationResult
    [ param "id" .> isInt .> withMessage "Student ID must be an integer" ] req in
  if negb (isEmpty errors) then
    res_status_json 400 (PErrors errors)
  else
  try (
    pool_getConnection ;;
    result <- conn_query (SelectById (params_id req)) ;;
    conn_release ;;
    res_json (match rows_of result with
              | row :: _ => PRow row
              | [] => PMessage "Student not found"
              end)
  ) catch (fun err =>
    res_status_json 500 (PError err)).

(** [app.post('/students', ...)] *)
Definition post_students (req : request) : M response :=
  let errors := validationResult
    [ body "name" .> isString .> notEmpty .> withMessage "Name is required";
      body "email" .> isEmail .> withMessage "Invalid email";
      body "age" .> isInt .> withMessage "Age must be an integer" ] req in
  if negb (isEmpty errors) then
    res_status_json 400 (PErrors errors)
  else
  try (
    let name := body_name req in
    let email := body_email req in
    let age := body_age req in
    let sanitizedEmail := sanitize email in
    pool_getConnection ;;
    result <- conn_query (InsertStudent (sanitize name) sanitizedEmail age) ;;
    conn_release ;;
    res_status_json_id 201 "Student added successfully" (insertId_of result)
  ) catch (fun err =>
    res_status_json 500 (PError err)).

(** [app.patch('/students/:id', ...)] *)
Definition patch_student (req : request) : M response :=
  let errors := validationResult
    [ param "id" .> isInt .> withMessage "Student ID must be an integer";
      body "email" .> isEmail .> withMessage "Invalid email" ] req in
  if negb (isEmpty errors) then
    res_status_json 400 (PErrors errors)
  else
  try (
    let email := body_email req in
    let sanitizedEmail := sanitize email in
    pool_getConnection ;;
    conn_query (UpdateEmail sanitizedEmail (params_id req)) ;;
    conn_release ;;
    res_json (PMessage "Student email updated successfully")
  ) catch (fun err =>
    res_status_json 500 (PError err)).

(** [app.delete('/students/:id', ...)] *)
Definition delete_student (req : request) : M response :=
  let errors := validationResult
    [ param "id" .> isInt .> withMessage "Student ID must be an integer" ] req in
  if negb (isEmpty errors) then
    res_status_json 400 (PErrors errors)
  else
  try (
    pool_getConnection ;;
    conn_query (DeleteById (params_id req)) ;;
    conn_release ;;
    res_json (PMessage "Student deleted successfully")
  ) catch (fun err =>
    res_status_json 500 (PError err)).

(** The address of the remote function, up to the keyword. *)
Definition azureFunctionBase : string :=
  "https://shashankhfunction123.azurewebsites.net/api/Function?keyword=".

(** [req.query.keyword || "nothing"]: the empty text is falsy. *)
Definition keyword_or_nothing (k : option string) : string :=
  match k with
  | None => "nothing"
  | Some s => if (s =? "")%string then "nothing" else s
  end.

(** [app.get('/say', ...)] *)
Definition get_say (req : request) : M response :=
  try (
    let keyword := keyword_or_nothing (query_keyword req) in
    let azureFunctionUrl := azureFunctionBase ++ keyword in
    data <- axios_get azureFunctionUrl ;;
    res_json (PData data)
  ) catch (fun _ =>
    res_status_json 500 (PError "Error calling Azure Function")).

(** The five operations on students, and the route of each. *)
Inductive operation : Type :=
| ListStudents | GetStudent | CreateStudent | UpdateStudentEmail | DeleteStudent.

Definition route (op : operation) : request -> M response :=
  match op with
  | ListStudents => get_students
  | GetStudent => get_student
  | CreateStudent => post_students
  | UpdateStudentEmail => patch_student
  | DeleteStudent => delete_student
  end.

End Server.

(** The events a run added to the trace. *)
Definition new_events (before after : world) : list event :=
  skipn (List.length (trace before)) (trace after).

(** A run that answers [r] and does nothing else: no connection is taken, no
    statement is issued and no row changes. *)
Definition only_responds (r : response) (w : world)
    (out : (string + response) * world) : Prop :=
  fst out = inr r /\
  students (snd out) = students w /\
  in_use (snd out) = in_use w /\
  new_events w (snd out) = [Respond r].

(** ** The constraints of a create request, field by field *)

Section Constraints.
Context {L : Library}.

(** [name] is a text that is not empty. *)
Definition name_ok (v : jsval) : bool :=
  match v with
  | JStr s => negb (s =? "")%string
  | _ => false
  end.

(** [email] has the syntax of an e-mail address. *)
Definition email_ok (v : jsval) : bool := validator_isEmail (toString v).

(** [age] is an integer. *)
Definition age_ok (v : jsval) : bool := validator_isInt (toString v).

(** The fields of a create request that break their constraint. *)
Definition violated_fields (req : request) : list string :=
  ((if name_ok (body_name req) then [] else ["name"]) ++
   (if email_ok (body_email req) then [] else ["email"]) ++
   (if age_ok (body_age req) then [] else ["age"]))%list.

End Constraints.

(** ** One implementation of the packages, to run the handlers on *)

Definition is_digit (c : ascii) : bool :=
  ((48 <=? nat_of_ascii c) && (nat_of_ascii c <=? 57))%nat.

Fixpoint all_digits (s : string) : bool :=
  match s with
  | EmptyString => true
  | String c rest => is_digit c && all_digits rest
  end.

Definition is_sign (c : ascii) : bool :=
  (c =? "+")%char || (c =? "-")%char.

(** An optional sign and at least one decimal digit. *)
Definition decimal_isInt (s : string) : bool :=
  match s with
  | EmptyString => false
  | String c rest =>
      if is_sign c
      then negb (rest =? "")%string && all_digits rest
      else all_digits s
  end.

Fixpoint digits_value (acc : Z) (s : string) : Z :=
  match s with
  | EmptyString => acc
  | String c rest =>
      if is_digit c
      then digits_value (10 * acc + Z.of_nat (nat_of_ascii c - 48)) rest
      else acc
  end.

(** The number a decimal text stands for; reading stops at the first
    character that is not a digit. *)
Definition decimal_number (s : string) : Z :=
  match s with
  | EmptyString => 0
  | String c rest =>
      if (c =? "-")%char then - digits_value 0 rest
      else if (c =? "+")%char then digits_value 0 rest
      else digits_value 0 s
  end.

Definition is_letter (c : ascii) : bool :=
  (((65 <=? nat_of_ascii c) && (nat_of_ascii c <=? 90)) ||
   ((97 <=? nat_of_ascii c) && (nat_of_ascii c <=? 122)))%nat.

Fixpoint all_chars (f : ascii -> bool) (s : string) : bool :=
  match s with
  | EmptyString => true
  | String c rest => f c && all_chars f rest
  end.

Fixpoint starts_with (p s : string) : bool :=
  match p, s with
  | EmptyString, _ => true
  | String a p', String b s' => (a =? b)%char && starts_with p' s'
  | String _ _, EmptyString => false
  end.

Fixpoint last_char (s : string) : option ascii :=
  match s with
  | EmptyString => None
  | String c EmptyString => Some c
  | String _ rest => last_char rest
  end.

(** The pieces of [s] between the occurrences of [sep]. *)
Fixpoint fields (sep : ascii) (s : string) : list string :=
  match s with
  | EmptyString => [EmptyString]
  | String c rest =>
      if (c =? sep)%char then EmptyString :: fields sep rest
      else match fields sep rest with
           | f :: fs => String c f :: fs
           | [] => [String c EmptyString]
           end
  end.

Definition atom_char (c : ascii) : bool :=
  is_letter c || is_digit c ||
  existsb (Ascii.eqb c) (list_ascii_of_string "!#$%&'*+-/=?^_`{|}~").

Definition atom_ok (a : string) : bool :=
  negb (a =? "")%string && all_chars atom_char a.

Definition label_char (c : ascii) : bool :=
  is_letter c || is_digit c || (c =? "-")%char.

Definition label_ok (l : string) : bool :=
  negb (l =? "")%string && (String.length l <=? 63)%nat &&
  all_chars label_char l && negb (starts_with "-" l) &&
  negb (match last_char l with Some c => (c =? "-")%char | None => false end).

Definition tld_ok (l : string) : bool :=
  (2 <=? String.length l)%nat && all_chars is_letter l.

(** A cautious reading of the e-mail syntax, which accepts only addresses of
    the plain form [atom.atom@label.label.tld]: a user part of at most 64
    characters made of atoms joined by dots, one [@], and a host of at least
    two labels of letters, digits and inner hyphens that ends in letters. *)
Definition plain_isEmail (s : string) : bool :=
  match fields "@" s with
  | [user; host] =>
      (String.length user <=? 64)%nat && (String.length host <=? 254)%nat &&
      forallb atom_ok (fields "." user) &&
      (2 <=? List.length (fields "." host))%nat &&
      forallb label_ok (fields "." host) &&
      tld_ok (last (fields "." host) EmptyString)
  | _ => false
  end.

(** *** Sanitization *)

Definition opens_tag (rest : string) : bool :=
  match rest with
  | String c _ => is_letter c || (c =? "/")%char
  | EmptyString => false
  end.

(** The text after an [&] is the name of an entity that stands for an unsafe
    character. *)
Definition begins_entity (rest : string) : bool :=
  starts_with "amp;" rest || starts_with "lt;" rest || starts_with "gt;" rest.

Definition lower (c : ascii) : ascii :=
  if ((65 <=? nat_of_ascii c) && (nat_of_ascii c <=? 90))%nat
  then ascii_of_nat (nat_of_ascii c + 32) else c.

Definition name_char (c : ascii) : bool :=
  is_letter c || is_digit c || (c =? "/")%char.

(** The elements whose content is code, not text. *)
Definition skipped_element (name : string) : bool :=
  (name =? "script")%string || (name =? "style")%string.

(** Where the reading of a text stands: in text, inside a tag whose name is
    being read, inside a skipped element, or inside a tag met there. *)
Inductive mode : Type :=
| Text
| Tag (name : string) (naming : bool)
| Skipped (element : string)
| SkippedTag (element name : string) (naming : bool).

(** Modelled from the spec: the sanitize-html package is not part of the
    sources.  Sections 2 and 4.3 have sanitization strip or escape the
    HTML-unsafe characters of free text, section 4.1 calls the result
    HTML-stripped, the glossary names markup and script content, and section
    8 has [<b>Ann</b>] come back without its markup and a plain address
    unchanged.  [scrub] reads the text as HTML and writes its text content
    back escaped: a tag (a [<] before a letter or a slash, up to the next
    [>]) is dropped, and so is everything inside a script or style element;
    any other [<], a [>] and an [&] are written as the entities [&lt;],
    [&gt;] and [&amp;], an [&] that already begins one of these entities
    being left as it is. *)
Fixpoint scrub (m : mode) (s : string) : string :=
  match s with
  | EmptyString => EmptyString
  | String c rest =>
      match m with
      | Text =>
          if (c =? "<")%char then
            if opens_tag rest then scrub (Tag "" true) rest
            else "&lt;" ++ scrub Text rest
          else if (c =? ">")%char then "&gt;" ++ scrub Text rest
          else if (c =? "&")%char then
            if begins_entity rest then String c (scrub Text rest)
            else "&amp;" ++ scrub Text rest
          else String c (scrub Text rest)
      | Tag name naming =>
          if (c =? ">")%char then
            scrub (if skipped_element name then Skipped name else Text) rest
          else if naming && name_char c then
            scrub (Tag (name ++ String (lower c) "") true) rest
          else scrub (Tag name false) rest
      | Skipped element =>
          if (c =? "<")%char && starts_with "/" rest
          then scrub (SkippedTag element "" true) rest
          else scrub (Skipped element) rest
      | SkippedTag element name naming =>
          if (c =? ">")%char then
            scrub (if (name =? "/" ++ element)%string then Text
                   else Skipped element) rest
          else if naming && name_char c then
            scrub (SkippedTag element (name ++ String (lower c) "") true) rest
          else scrub (SkippedTag element name false) rest
      end
  end.

(** Modelled from the spec: sanitization of a text value. *)
Definition sanitize_text (s : string) : string := scrub Text s.

(** A text with no bare unsafe character: no [<], no [>], and every [&] at
    the head of an entity. *)
Fixpoint clean (s : string) : bool :=
  match s with
  | EmptyString => true
  | String c rest =>
      if (c =? "<")%char || (c =? ">")%char then false
      else if (c =? "&")%char then begins_entity rest && clean rest
      else clean rest
  end.

Definition plain (c : ascii) : bool :=
  negb ((c =? "<")%char || (c =? ">")%char) && negb (c =? "&")%char.

(** The packages as a storage client that gives [insertId] as a number has
    them. *)
Definition reference_library : Library :=
  {| validator_isInt := decimal_isInt;
     validator_isEmail := plain_isEmail;
     sanitizeHtml := sanitize_text;
     sql_number := decimal_number;
     insertId_json_error := None |}.

(** The same with a storage client that gives [insertId] as a BigInt. *)
Definition bigint_library : Library :=
  {| validator_isInt := decimal_isInt;
     validator_isEmail := plain_isEmail;
     sanitizeHtml := sanitize_text;
     sql_number := decimal_number;
     insertId_json_error := Some "Do not know how to serialize a BigInt" |}.

(** ** The remote function (the Azure handler) *)

(** [request.query] of an [app.http] handler is a URLSearchParams: its
    entries are read with [get(name)].  It has no property named after an
    entry, so [request.query.keyword] is undefined whatever the query
    holds. *)
Definition URLSearchParams : Type := list (string * string).

Definition query_dot_keyword (query : URLSearchParams) : option string := None.

Definition truthy (k : option string) : option string :=
  match k with
  | Some s => if (s =? "")%string then None else Some s
  | None => None
  end.

Definition double_quote : string := String (ascii_of_nat 34) EmptyString.

(** The handler answers with
    [request.query.keyword || body.keyword || 'nothing'] between quotes;
    [body_keyword] is the keyword of the JSON body, absent when the request
    has no body that parses. *)
Definition azure_Function (query : URLSearchParams) (body_keyword : option string) :
    string :=
  let keyword :=
    match truthy (query_dot_keyword query), truthy body_keyword with
    | Some s, _ => s
    | None, Some s => s
    | None, None => "nothing"
    end in
  ("Shashankh says " ++ double_quote ++ keyword ++ double_quote)%string.

(** A network on which the remote function is reachable at its address and
    nothing else is; a [GET] carries the keyword in the query and no body. *)
Definition azure_remote (url : string) : string + string :=
  let n := String.length azureFunctionBase in
  if (substring 0 n url =? azureFunctionBase)%string
  then inr (azure_Function
              [("keyword"%string, substring n (String.length url - n) url)] None)
  else inl "ENOTFOUND"%string.

(** ** Sample requests, environments and worlds *)

Definition no_failure : env :=
  {| connect_error := None; query_error := None; remote := azure_remote |}.

Definition query_fails (msg : string) : env :=
  {| connect_error := None; query_error := Some msg; remote := azure_remote |}.

Definition empty_world : world :=
  {| students := {| rows := []; auto_increment := 1 |}; in_use := 0; trace := [] |}.

Definition ann : request :=
  {| params_id := "1"; body_name := JStr "<b>Ann</b>";
     body_email := JStr "ann@example.com"; body_age := JNum 30;
     query_keyword := None |}.

Definition ann_row : student :=
  {| st_id := 1; st_name := "Ann"; st_email := "ann@example.com";
     st_age := Some 30 |}.

Definition ann_world : world :=
  {| students := {| rows := [ann_row]; auto_increment := 2 |};
     in_use := 0; trace := [] |}.

Definition with_id (key : string) (req : request) : request :=
  {| params_id := key; body_name := body_name req;
     body_email := body_email req; body_age := body_age req;
     query_keyword := query_keyword req |}.

Definition with_keyword (k : option string) (req : request) : request :=
  {| params_id := params_id req; body_name := body_name req;
     body_email := body_email req; body_age := body_age req;
     query_keyword := k |}.

Definition plus007 : request :=
  {| params_id := ""; body_name := JStr "Ann";
     body_email := JStr "ann@example.com"; body_age := JStr "+007";
     query_keyword := None |}.

Definition broken_create : request :=
  {| params_id := ""; body_name := JStr ""; body_email := JStr "ann.example.com";
     body_age := JStr "thirty"; query_keyword := None |}.

(** ** The routes, side by side *)

Section Outcomes.
Context {L : Library}.

(** The validation chains of each route, as its [app.<method>] call lists
    them. *)
Definition rules (op : operation) : list chain :=
  match op with
  | ListStudents => []
  | GetStudent | DeleteStudent =>
      [ param "id" .> isInt .> withMessage "Student ID must be an integer" ]
  | CreateStudent =>
      [ body "name" .> isString .> notEmpty .> withMessage "Name is required";
        body "email" .> isEmail .> withMessage "Invalid email";
        body "age" .> isInt .> withMessage "Age must be an integer" ]
  | UpdateStudentEmail =>
      [ param "id" .> isInt .> withMessage "Student ID must be an integer";
        body "email" .> isEmail .> withMessage "Invalid email" ]
  end.

(** The request breaks none of the constraints of its route. *)
Definition valid_for (op : operation) (req : request) : bool :=
  match op with
  | ListStudents => true
  | GetStudent | DeleteStudent => validator_isInt (params_id req)
  | CreateStudent =>
      name_ok (body_name req) && email_ok (body_email req) && age_ok (body_age req)
  | UpdateStudentEmail =>
      validator_isInt (params_id req) && email_ok (body_email req)
  end.

(** The one statement a route sends, with the parameters it binds. *)
Definition statement_of (op : operation) (req : request) : statement :=
  match op with
  | ListStudents => SelectAll
  | GetStudent => SelectById (params_id req)
  | CreateStudent =>
      InsertStudent (sanitize (body_name req)) (sanitize (body_email req))
        (body_age req)
  | UpdateStudentEmail => UpdateEmail (sanitize (body_email req)) (params_id req)
  | DeleteStudent => DeleteById (params_id req)
  end.

(** What a route answers once its statement has run and the connection is
    back in the pool. *)
Definition answer_of (op : operation) (result : qresult) : response :=
  match op with
  | ListStudents => {| status := 200; sent := PRows (rows_of result) |}
  | GetStudent =>
      {| status := 200;
         sent := match rows_of result with
                 | row :: _ => PRow row
                 | [] => PMessage "Student not found"
                 end |}
  | CreateStudent =>
      match insertId_json_error with
      | Some err => {| status := 500; sent := PError err |}
      | None =>
          {| status := 201;
             sent := PCreated "Student added successfully" (insertId_of result) |}
      end
  | UpdateStudentEmail =>
      {| status := 200; sent := PMessage "Student email updated successfully" |}
  | DeleteStudent =>
      {| status := 200; sent := PMessage "Student deleted successfully" |}
  end.

(** The statement of this request fails after a connection was taken. *)
Definition leaks (op : operation) (req : request) (E : env) : bool :=
  valid_for op req &&
  match connect_error E, query_error E with
  | None, Some _ => true
  | _, _ => false
  end.

(** Requests served one after the other, each with what the outside decides
    for it. *)
Fixpoint serve (jobs : list (operation * request * env)) (w : world) : world :=
  match jobs with
  | [] => w
  | (op, req, E) :: later => serve later (snd (route op req E w))
  end.

(** The earlier version of two routes, kept in server.js after the current
    one: the same blocks, without validation chains. *)

(** [app.get('/students/:id', async ...)], earlier version *)
Definition legacy_get_student (req : request) : M response :=
  try (
    pool_getConnection ;;
    result <- conn_query (SelectById (params_id req)) ;;
    conn_release ;;
    res_json (match rows_of result with
              | row :: _ => PRow row
              | [] => PMessage "Student not found"
              end)
  ) catch (fun err =>
    res_status_json 500 (PError err)).

(** [app.delete('/students/:id', async ...)], earlier version *)
Definition legacy_delete_student (req : request) : M response :=
  try (
    pool_getConnection ;;
    conn_query (DeleteById (params_id req)) ;;
    conn_release ;;
    res_json (PMessage "Student deleted successfully")
  ) catch (fun err =>
    res_status_json 500 (PError err)).

End Outcomes.

(** The world after a run that left the table [d], [held] connections in use
    and the events [added]. *)
Definition ran (w : world) (d : database) (held : nat) (added : list event) : world :=
  {| students := d; in_use := held; trace := trace w ++ added |}.

(** No two rows share a key. *)
Definition keys_unique (d : database) : Prop :=
  NoDup (map st_id (rows d)).

Definition connect_fails (msg : string) : env :=
  {| connect_error := Some msg; query_error := None; remote := azure_remote |}.

Definition remote_down : env :=
  {| connect_error := None; query_error := None;
     remote := fun _ => inl "ETIMEDOUT"%string |}.

Definition bob : request :=
  {| params_id := "2"; body_name := JStr "Bob <bob>";
     body_email := JStr "bob&co@example.com"; body_age := JStr "41";
     query_keyword := Some "hello" |}.

Definition nameless_create : request :=
  {| params_id := ""; body_name := JUndefined; body_email := JNull;
     body_age := JBool true; query_keyword := None |}.

Definition sample_jobs : list (operation * request * env) :=
  [ (CreateStudent, bob, no_failure);
    (ListStudents, ann, query_fails "ER_NO_SUCH_TABLE");
    (DeleteStudent, with_id "1" ann, no_failure);
    (GetStudent, with_id "abc" ann, query_fails "ER_LOCK_DEADLOCK");
    (UpdateStudentEmail, bob, query_fails "ER_LOCK_DEADLOCK") ].

(** * Results *)

(** ** Traces *)

Lemma skipn_length_app {A : Type} (l added : list A) :
  skipn (List.length l) (l ++ added) = added.
Proof.
  induction l as [| x l IH]; simpl; [reflexivity | exact IH].
Qed.

Lemma new_events_added (w w' : world) (added : list event) :
  trace w' = (trace w ++ added)%list -> new_events w w' = added.
Proof.
  intros H. unfold new_events. rewrite H. apply skipn_length_app.
Qed.

Lemma app_two {A : Type} (l : list A) (x y : A) :
  ((l ++ [x]) ++ [y] = l ++ [x; y])%list.
Proof. rewrite <- app_assoc. reflexivity. Qed.

Section Results.
Context {L : Library}.

(** ** What validation answers on each route *)

Lemma id_rule_result (req : request) :
  validationResult
    [ param "id" .> isInt .> withMessage "Student ID must be an integer" ] req
  = if validator_isInt (params_id req) then [] else [id_error].
Proof.
  cbn. destruct (validator_isInt (params_id req)); reflexivity.
Qed.

Lemma patch_rules_result (req : request) :
  validationResult
    [ param "id" .> isInt .> withMessage "Student ID must be an integer";
      body "email" .> isEmail .> withMessage "Invalid email" ] req
  = ((if validator_isInt (params_id req) then [] else [id_error]) ++
     (if validator_isEmail (toString (body_email req)) then [] else [email_error]))%list.
Proof.
  cbn. destruct (validator_isInt (params_id req));
    destruct (validator_isEmail (toString (body_email req))); reflexivity.
Qed.

Lemma post_rules_result (req : request) :
  validationResult
    [ body "name" .> isString .> notEmpty .> withMessage "Name is required";
      body "email" .> isEmail .> withMessage "Invalid email";
      body "age" .> isInt .> withMessage "Age must be an integer" ] req
  = ((if passes IsString (body_name req) then [] else [name_type_error]) ++
     (if passes NotEmpty (body_name req) then [] else [name_error]) ++
     (if email_ok (body_email req) then [] else [email_error]) ++
     (if age_ok (body_age req) then [] else [age_error]))%list.
Proof.
  unfold email_ok, age_ok. cbn.
  destruct (body_name req) as [| | b | n | s]; cbn;
    repeat match goal with
           | |- context [if ?c then _ else _] => destruct c; cbn
           end; reflexivity.
Qed.

(** ** Running a handler *)

Ltac unfold_handler :=
  unfold route, get_students, get_student, post_students, patch_student,
    delete_student, get_say;
  rewrite ?id_rule_result, ?patch_rules_result, ?post_rules_result.

Ltac run_block :=
  unfold try_catch, bind, pool_getConnection, conn_query, conn_release,
    axios_get, res_json, res_status_json_id, throw, res_status_json, emit; cbn.

(** ** Reads leave the table alone *)

(** C10: the list and get-by-id operations leave the students table as it
    was, whatever the request, the starting table and the outcome of the
    storage calls. *)
Theorem reads_leave_table_unchanged :
  forall (req : request) (E : env) (w : world),
    students (snd (get_students req E w)) = students w /\
    students (snd (get_student req E w)) = students w.
Proof.
  intros req E w. split.
  - unfold_handler. run_block.
    destruct (connect_error E); [reflexivity |].
    destruct (query_error E); reflexivity.
  - unfold_handler.
    destruct (validator_isInt (params_id req)); cbn.
    + run_block.
      destruct (connect_error E); [reflexivity |].
      destruct (query_error E); reflexivity.
    + reflexivity.
Qed.

(** ** Validation comes first *)

Lemma respond_only (code : nat) (p : payload) (E : env) (w : world) :
  only_responds {| status := code; sent := p |} w (res_status_json code p E w).
Proof.
  unfold only_responds, res_status_json, emit; cbn.
  repeat split. apply new_events_added. reflexivity.
Qed.

(** C3: when the [id] of the path is not an integer, get-by-id, update-email
    and delete each answer 400 with a list of errors that cites the [id]
    field, and do nothing else: no connection is taken, no statement is
    issued, the table is as it was. *)
Theorem non_integer_id_is_rejected_before_storage :
  forall (req : request) (E : env) (w : world),
    validator_isInt (params_id req) = false ->
    (exists errs, In id_error errs /\
       only_responds {| status := 400; sent := PErrors errs |} w
         (get_student req E w)) /\
    (exists errs, In id_error errs /\
       only_responds {| status := 400; sent := PErrors errs |} w
         (patch_student req E w)) /\
    (exists errs, In id_error errs /\
       only_responds {| status := 400; sent := PErrors errs |} w
         (delete_student req E w)).
Proof.
  intros req E w Hid. split; [| split].
  - exists [id_error]. split; [left; reflexivity |].
    unfold_handler. rewrite Hid. cbn. apply respond_only.
  - unfold_handler. rewrite Hid. cbn. eexists.
    split; [| apply respond_only]. left; reflexivity.
  - exists [id_error]. split; [left; reflexivity |].
    unfold_handler. rewrite Hid. cbn. apply respond_only.
Qed.

Lemma name_ok_passes (v : jsval) :
  name_ok v = passes IsString v && passes NotEmpty v.
Proof. destruct v; reflexivity. Qed.

(** C4: a create request that breaks any of its three constraints is answered
    by one 400 response whose errors cite exactly the fields in violation, and
    nothing else happens: no connection is taken, no insert is issued, the
    table is as it was. *)
Theorem invalid_create_lists_violated_fields :
  forall (req : request) (E : env) (w : world),
    violated_fields req <> [] ->
    exists errs,
      only_responds {| status := 400; sent := PErrors errs |} w
        (post_students req E w) /\
      (forall f, In f (map v_path errs) <-> In f (violated_fields req)).
Proof.
  intros req E w Hv. unfold_handler.
  unfold violated_fields in *. rewrite name_ok_passes in *.
  destruct (passes IsString (body_name req));
    destruct (passes NotEmpty (body_name req));
    destruct (email_ok (body_email req));
    destruct (age_ok (body_age req)); cbn in *;
    try contradiction;
    (eexists; split; [apply respond_only | intros f; cbn; tauto]).
Qed.

(** ** Storage *)

Lemma filter_none {A : Type} (f : A -> bool) (l : list A) :
  (forall x, In x l -> f x = false) -> filter f l = [].
Proof.
  induction l as [| x l IH]; intros H; cbn; [reflexivity |].
  rewrite (H x (or_introl eq_refl)). apply IH.
  intros y Hy. apply H. right. exact Hy.
Qed.

Lemma no_row_for_key (key : string) (l : list student) :
  (forall r, In r l -> st_id r <> sql_number key) ->
  filter (id_is key) l = [].
Proof.
  intros H. apply filter_none. intros r Hr.
  unfold id_is. apply Z.eqb_neq. apply H. exact Hr.
Qed.

Lemma wf_below (d : database) (r : student) :
  db_wf d = true -> In r (rows d) -> st_id r < auto_increment d.
Proof.
  unfold db_wf. intros Hwf Hr.
  rewrite forallb_forall in Hwf. apply Z.ltb_lt. apply Hwf. exact Hr.
Qed.

(** Every statement keeps the keys of the table below the counter. *)
Lemma exec_keeps_wf (q : statement) (d : database) :
  db_wf d = true -> db_wf (fst (exec q d)) = true.
Proof.
  intros Hwf. unfold db_wf in *. rewrite forallb_forall in *.
  destruct q as [| key | n e a | e key | key]; cbn; try exact Hwf.
  - intros r Hr. apply in_app_or in Hr. destruct Hr as [Hr | [<- | []]].
    + apply Z.ltb_lt. specialize (Hwf r Hr). apply Z.ltb_lt in Hwf. lia.
    + cbn. apply Z.ltb_lt. lia.
  - intros r Hr. apply in_map_iff in Hr. destruct Hr as [r0 [Hr0 Hin]].
    specialize (Hwf r0 Hin). subst r.
    destruct (id_is key r0); cbn; exact Hwf.
  - intros r Hr. apply filter_In in Hr. apply Hwf. apply Hr.
Qed.

(** So does every operation, whatever the request and the outcome of the
    storage calls. *)
Lemma route_keeps_wf (op : operation) (req : request) (E : env) (w : world) :
  db_wf (students w) = true ->
  db_wf (students (snd (route op req E w))) = true.
Proof.
  intros Hwf.
  destruct op; unfold_handler;
    repeat match goal with
           | |- context [if ?c then _ else _] => destruct c; cbn
           end;
    try exact Hwf;
    run_block; destruct (connect_error E); cbn; try exact Hwf;
    destruct (query_error E); cbn; try exact Hwf;
    try match goal with
        | |- context [insertId_json_error] => destruct insertId_json_error; cbn
        end.
  - exact (exec_keeps_wf
             (InsertStudent (sanitize (body_name req))
                (sanitize (body_email req)) (body_age req)) _ Hwf).
  - exact (exec_keeps_wf
             (InsertStudent (sanitize (body_name req))
                (sanitize (body_email req)) (body_age req)) _ Hwf).
  - exact (exec_keeps_wf
             (UpdateEmail (sanitize (body_email req)) (params_id req)) _ Hwf).
  - exact (exec_keeps_wf (DeleteById (params_id req)) _ Hwf).
Qed.

(** A fresh row is the only one its key selects. *)
Lemma select_fresh_row (d : database) (key : string) (row : student) :
  db_wf d = true ->
  st_id row = auto_increment d ->
  sql_number key = auto_increment d ->
  filter (id_is key) (rows d ++ [row]) = [row].
Proof.
  intros Hwf Hrow Hkey. rewrite filter_app.
  rewrite (no_row_for_key key (rows d)).
  - cbn. unfold id_is. rewrite Hrow, Hkey, Z.eqb_refl. reflexivity.
  - intros r Hr. pose proof (wf_below d r Hwf Hr). lia.
Qed.

(** ** Get by id *)

(** C2: for an [id] that is an integer and matches no row of the table,
    get-by-id, once the pool has given a connection and the select has run,
    answers with status 200 and the payload [{message: "Student not found"}]. *)
Theorem get_unknown_id_answers_not_found :
  forall (req : request) (E : env) (w : world),
    validator_isInt (params_id req) = true ->
    (forall r, In r (rows (students w)) -> st_id r <> sql_number (params_id req)) ->
    connect_error E = None ->
    query_error E = None ->
    fst (get_student req E w) =
      inr {| status := 200; sent := PMessage "Student not found" |}.
Proof.
  intros req E w Hid Hnone Hc Hq.
  unfold_handler. rewrite Hid. cbn.
  run_block. rewrite Hc, Hq. cbn.
  rewrite (no_row_for_key _ _ Hnone). reflexivity.
Qed.

(** ** Create, then get *)

(** C5, amended: a create request with a non-empty name, a valid e-mail
    address and an age that passes the integer check (a safe integer when it
    is a number), served while storage works by a client whose [insertId]
    serializes, answers 201 with a new id after an insert that binds the
    sanitized name, the sanitized email and the age as it came; a get-by-id
    of that id then answers 200 with a row whose email is the sanitized input
    email.  Its age equals the input exactly when the input was a number; an
    age given as text comes back as the number storage reads in it. *)
Theorem create_then_get_round_trip :
  forall (req : request) (E E' : env) (w : world),
    name_ok (body_name req) = true ->
    email_ok (body_email req) = true ->
    age_ok (body_age req) = true ->
    (forall n, body_age req = JNum n -> safe_integer n = true) ->
    insertId_json_error = None ->
    connect_error E = None -> query_error E = None ->
    connect_error E' = None -> query_error E' = None ->
    db_wf (students w) = true ->
    exists (i : Z) (row : student),
      fst (post_students req E w) =
        inr {| status := 201; sent := PCreated "Student added successfully" i |} /\
      In (Query (InsertStudent (sanitize (body_name req))
                   (sanitize (body_email req)) (body_age req)))
         (new_events w (snd (post_students req E w))) /\
      (forall req',
          validator_isInt (params_id req') = true ->
          sql_number (params_id req') = i ->
          fst (get_student req' E' (snd (post_students req E w))) =
            inr {| status := 200; sent := PRow row |}) /\
      st_id row = i /\
      st_name row = sanitize (body_name req) /\
      st_email row = sanitize (body_email req) /\
      st_age row = sql_integer (body_age req) /\
      (forall n, body_age req = JNum n -> age_json row = body_age req) /\
      (forall s, body_age req = JStr s -> age_json row = JNum (sql_number s)).
Proof.
  intros req E E' w Hn He Ha Hsafe Hj Hc Hq Hc' Hq' Hwf.
  exists (auto_increment (students w)).
  exists {| st_id := auto_increment (students w);
            st_name := sanitize (body_name req);
            st_email := sanitize (body_email req);
            st_age := sql_integer (body_age req) |}.
  assert (Hpost : post_students req E w =
    (inr {| status := 201;
            sent := PCreated "Student added successfully"
                      (auto_increment (students w)) |},
     {| students := fst (exec (InsertStudent (sanitize (body_name req))
                                 (sanitize (body_email req)) (body_age req))
                              (students w));
        in_use := in_use w;
        trace := (trace w ++
                  [Acquire;
                   Query (InsertStudent (sanitize (body_name req))
                            (sanitize (body_email req)) (body_age req));
                   Release;
                   Respond {| status := 201;
                              sent := PCreated "Student added successfully"
                                        (auto_increment (students w)) |}])%list |})).
  { unfold_handler. rewrite name_ok_passes in Hn.
    apply andb_true_iff in Hn. destruct Hn as [Hn1 Hn2].
    rewrite Hn1, Hn2, He, Ha. cbn.
    run_block. rewrite Hc, Hq. cbn. rewrite Hj. cbn.
    rewrite <- !app_assoc. reflexivity. }
  rewrite Hpost. cbn [fst snd].
  split; [reflexivity |]. split; [| split].
  - erewrite new_events_added by reflexivity. right; left; reflexivity.
  - intros req' Hid Hkey.
    unfold_handler. rewrite Hid. cbn.
    run_block. rewrite Hc', Hq'. cbn.
    rewrite select_fresh_row; auto.
  - unfold age_json. cbn [st_id st_name st_email st_age].
    repeat split; intros x Hx; rewrite Hx; reflexivity.
Qed.

(** ** Update of the email *)

Lemma update_frame (e key : string) (l : list student) :
  Forall2 (fun r r' =>
             st_id r' = st_id r /\ st_name r' = st_name r /\
             st_age r' = st_age r /\
             (st_email r' = st_email r \/ st_email r' = e) /\
             (st_id r <> sql_number key -> r' = r))
          l (map (fun r => if id_is key r then set_email e r else r) l).
Proof.
  induction l as [| r l IH]; cbn; constructor; [| exact IH].
  unfold id_is. destruct (Z.eqb_spec (st_id r) (sql_number key)) as [Heq | Hne].
  - cbn. repeat split; auto. intros H. contradiction.
  - repeat split; auto.
Qed.

Lemma unchanged_frame (e key : string) (l : list student) :
  Forall2 (fun r r' =>
             st_id r' = st_id r /\ st_name r' = st_name r /\
             st_age r' = st_age r /\
             (st_email r' = st_email r \/ st_email r' = e) /\
             (st_id r <> sql_number key -> r' = r))
          l l.
Proof.
  induction l as [| r l IH]; constructor; [| exact IH].
  repeat split; auto.
Qed.

(** C6: update-email changes at most the email of the rows whose id is the
    one of the path: row by row, the table after the operation has the same
    id, name and age as before, an email that is the old one or the sanitized
    new one, and a row whose id is another one is the same row.  No row is
    added or removed and the key counter stays. *)
Theorem update_email_changes_only_email :
  forall (req : request) (E : env) (w : world),
    Forall2 (fun r r' =>
               st_id r' = st_id r /\ st_name r' = st_name r /\
               st_age r' = st_age r /\
               (st_email r' = st_email r \/
                st_email r' = sanitize (body_email req)) /\
               (st_id r <> sql_number (params_id req) -> r' = r))
            (rows (students w))
            (rows (students (snd (patch_student req E w)))) /\
    auto_increment (students (snd (patch_student req E w))) =
      auto_increment (students w).
Proof.
  intros req E w. unfold_handler.
  destruct (validator_isInt (params_id req));
    destruct (validator_isEmail (toString (body_email req))); cbn;
    try (split; [apply unchanged_frame | reflexivity]).
  run_block.
  destruct (connect_error E); cbn;
    [split; [apply unchanged_frame | reflexivity] |].
  destruct (query_error E); cbn;
    [split; [apply unchanged_frame | reflexivity] |].
  split; [apply update_frame | reflexivity].
Qed.

(** ** The proxy *)

(** C8: a [GET /say] without a [keyword] parameter calls the remote function
    with the keyword [nothing], and that call is the first thing it does. *)
Theorem say_without_keyword_calls_with_nothing :
  forall (req : request) (E : env) (w : world),
    query_keyword req = None ->
    exists r,
      new_events w (snd (get_say req E w)) =
        [HttpGet (azureFunctionBase ++ "nothing"); Respond r].
Proof.
  intros req E w Hk. unfold_handler. rewrite Hk. run_block.
  destruct (remote E _) as [err | data]; cbn; eexists;
    apply new_events_added; cbn; rewrite <- app_assoc; reflexivity.
Qed.

(** C9: a [GET /say] whose [keyword] parameter is the empty text runs as the
    same request without the parameter does: same answer, same world, and the
    remote function is called with the keyword [nothing]. *)
Theorem say_with_empty_keyword_is_say_without :
  forall (req req' : request) (E : env) (w : world),
    query_keyword req = Some "" ->
    query_keyword req' = None ->
    get_say req E w = get_say req' E w /\
    exists r,
      new_events w (snd (get_say req E w)) =
        [HttpGet (azureFunctionBase ++ "nothing"); Respond r].
Proof.
  intros req req' E w Hk Hk'. unfold_handler. rewrite Hk, Hk'. cbn.
  split; [reflexivity |]. run_block.
  destruct (remote E _) as [err | data]; cbn; eexists;
    apply new_events_added; cbn; rewrite <- app_assoc; reflexivity.
Qed.

(** ** The pooled connection *)

Ltac added_events :=
  erewrite new_events_added in * by (cbn; rewrite <- ?app_assoc; reflexivity).

(** When the statement succeeds, each of the five operations gives the
    connection back before it answers, and the pool is as full as before. *)
Lemma connection_released_before_response :
  forall (op : operation) (req : request) (E : env) (w : world),
    query_error E = None ->
    In Acquire (new_events w (snd (route op req E w))) ->
    in_use (snd (route op req E w)) = in_use w /\
    exists q r,
      fst (route op req E w) = inr r /\
      new_events w (snd (route op req E w)) = [Acquire; Query q; Release; Respond r].
Proof.
  intros op req E w Hq.
  destruct op; unfold_handler;
    repeat match goal with
           | |- context [if ?c then _ else _] => destruct c; cbn
           end;
    try (added_events; cbn; intros H; intuition discriminate);
    run_block; rewrite ?Hq; destruct (connect_error E); cbn;
    try (added_events; cbn; intros H; intuition discriminate);
    try match goal with
        | |- context [insertId_json_error] => destruct insertId_json_error; cbn
        end;
    (intros _; split; [reflexivity |]; do 2 eexists; split; [reflexivity |];
     apply new_events_added; cbn; rewrite <- ?app_assoc; reflexivity).
Qed.

(** C1, as the code has it: when the statement fails after a connection was
    taken, each of the five operations answers 500 with the message of the
    error and never gives the connection back: no [Release] is in its trace
    and the pool has one more connection in use than before. *)
Theorem query_failure_leaks_connection :
  forall (op : operation) (req : request) (E : env) (w : world) (msg : string),
    query_error E = Some msg ->
    In Acquire (new_events w (snd (route op req E w))) ->
    fst (route op req E w) = inr {| status := 500; sent := PError msg |} /\
    ~ In Release (new_events w (snd (route op req E w))) /\
    in_use (snd (route op req E w)) = S (in_use w).
Proof.
  intros op req E w msg Hq.
  destruct op; unfold_handler;
    repeat match goal with
           | |- context [if ?c then _ else _] => destruct c; cbn
           end;
    try (added_events; cbn; intros H; intuition discriminate);
    run_block; rewrite ?Hq; destruct (connect_error E); cbn;
    try (added_events; cbn; intros H; intuition discriminate);
    (intros _; split; [reflexivity |]; split; [| reflexivity];
     added_events; cbn; intuition discriminate).
Qed.

End Results.

(** ** Sanitization *)

Lemma scrub_plain (c : ascii) (rest : string) :
  plain c = true -> scrub Text (String c rest) = String c (scrub Text rest).
Proof.
  unfold plain. intros H.
  apply andb_true_iff in H. destruct H as [H1 H2].
  apply negb_true_iff in H1, H2.
  apply orb_false_iff in H1. destruct H1 as [Hlt Hgt].
  cbn [scrub]. rewrite Hlt, Hgt, H2. reflexivity.
Qed.

(** A head made of plain characters is copied as it is. *)
Lemma starts_with_scrub (p : string) :
  all_chars plain p = true ->
  forall s, starts_with p s = true -> starts_with p (scrub Text s) = true.
Proof.
  induction p as [| a p IH]; intros Hp s Hs; [reflexivity |].
  cbn in Hp. apply andb_true_iff in Hp. destruct Hp as [Ha Hp].
  destruct s as [| b s]; [discriminate |].
  cbn in Hs. apply andb_true_iff in Hs. destruct Hs as [Hab Hs].
  apply Ascii.eqb_eq in Hab. subst b.
  rewrite (scrub_plain a s Ha). cbn. rewrite Ascii.eqb_refl. cbn.
  apply IH; assumption.
Qed.

Lemma begins_entity_scrub (s : string) :
  begins_entity s = true -> begins_entity (scrub Text s) = true.
Proof.
  unfold begins_entity. intros H.
  apply orb_true_iff in H. destruct H as [H | H3].
  - apply orb_true_iff in H. destruct H as [H1 | H2].
    + rewrite (starts_with_scrub "amp;" eq_refl s H1). reflexivity.
    + rewrite (starts_with_scrub "lt;" eq_refl s H2).
      rewrite orb_true_r. reflexivity.
  - rewrite (starts_with_scrub "gt;" eq_refl s H3).
    rewrite orb_true_r. reflexivity.
Qed.

(** Whatever it reads and wherever it starts, [scrub] writes a clean text. *)
Lemma scrub_clean (s : string) : forall m, clean (scrub m s) = true.
Proof.
  induction s as [| c rest IH]; intros m; [destruct m; reflexivity |].
  destruct m as [| name naming | element | element name naming]; cbn [scrub].
  - destruct (c =? "<")%char eqn:Hlt.
    { destruct (opens_tag rest); [apply IH |]. cbn. apply IH. }
    destruct (c =? ">")%char eqn:Hgt; [cbn; apply IH |].
    destruct (c =? "&")%char eqn:Hamp.
    + destruct (begins_entity rest) eqn:He.
      * cbn [clean]. rewrite Hlt, Hgt, Hamp. cbn.
        rewrite (begins_entity_scrub rest He), IH. reflexivity.
      * cbn. apply IH.
    + cbn [clean]. rewrite Hlt, Hgt, Hamp. cbn. apply IH.
  - destruct (c =? ">")%char; [apply IH |].
    destruct (naming && name_char c); apply IH.
  - destruct ((c =? "<")%char && starts_with "/" rest); apply IH.
  - destruct (c =? ">")%char; [apply IH |].
    destruct (naming && name_char c); apply IH.
Qed.

(** A clean text is written back as it is. *)
Lemma clean_fixed (s : string) : clean s = true -> scrub Text s = s.
Proof.
  induction s as [| c rest IH]; [reflexivity |].
  cbn [clean scrub].
  destruct (c =? "<")%char; [discriminate |].
  destruct (c =? ">")%char; [discriminate |]. cbn [orb].
  destruct (c =? "&")%char.
  - intros H. apply andb_true_iff in H. destruct H as [He Hc].
    rewrite He, (IH Hc). reflexivity.
  - intros H. rewrite (IH H). reflexivity.
Qed.

(** C7: sanitizing a text that was already sanitized gives that text again. *)
Theorem sanitization_is_idempotent :
  forall s : string, sanitize_text (sanitize_text s) = sanitize_text s.
Proof.
  intros s. unfold sanitize_text. apply clean_fixed. apply scrub_clean.
Qed.

(** ** The results on sample requests *)

Lemma query_failure_leaks_connection_witness :
  fst (@route reference_library ListStudents ann (query_fails "ER_NO_SUCH_TABLE") empty_world)
    = inr {| status := 500; sent := PError "ER_NO_SUCH_TABLE" |} /\
  ~ In Release (new_events empty_world
        (snd (@route reference_library ListStudents ann
                (query_fails "ER_NO_SUCH_TABLE") empty_world))) /\
  in_use (snd (@route reference_library ListStudents ann
                 (query_fails "ER_NO_SUCH_TABLE") empty_world)) = 1%nat.
Proof.
  apply (@query_failure_leaks_connection reference_library ListStudents ann
           (query_fails "ER_NO_SUCH_TABLE") empty_world "ER_NO_SUCH_TABLE").
  - reflexivity.
  - left. reflexivity.
Defined.

Lemma get_unknown_id_answers_not_found_witness :
  fst (@get_student reference_library (with_id "7" ann) no_failure ann_world)
    = inr {| status := 200; sent := PMessage "Student not found" |}.
Proof.
  apply (@get_unknown_id_answers_not_found reference_library
           (with_id "7" ann) no_failure ann_world).
  - reflexivity.
  - intros r [<- | []]. cbn. discriminate.
  - reflexivity.
  - reflexivity.
Defined.

Lemma non_integer_id_is_rejected_before_storage_witness :
  (exists errs, In id_error errs /\
     only_responds {| status := 400; sent := PErrors errs |} ann_world
       (@get_student reference_library (with_id "abc" ann) no_failure ann_world)) /\
  (exists errs, In id_error errs /\
     only_responds {| status := 400; sent := PErrors errs |} ann_world
       (@patch_student reference_library (with_id "abc" ann) no_failure ann_world)) /\
  (exists errs, In id_error errs /\
     only_responds {| status := 400; sent := PErrors errs |} ann_world
       (@delete_student reference_library (with_id "abc" ann) no_failure ann_world)).
Proof.
  apply (@non_integer_id_is_rejected_before_storage reference_library
           (with_id "abc" ann) no_failure ann_world).
  reflexivity.
Defined.

Lemma invalid_create_lists_violated_fields_witness :
  @violated_fields reference_library broken_create = ["name"; "email"; "age"] /\
  exists errs,
    only_responds {| status := 400; sent := PErrors errs |} ann_world
      (@post_students reference_library broken_create no_failure ann_world) /\
    (forall f, In f (map v_path errs) <->
               In f (@violated_fields reference_library broken_create)).
Proof.
  split; [reflexivity |].
  apply (@invalid_create_lists_violated_fields reference_library
           broken_create no_failure ann_world).
  discriminate.
Defined.

Lemma create_then_get_round_trip_witness :
  exists (i : Z) (row : student),
    fst (@post_students reference_library ann no_failure ann_world) =
      inr {| status := 201; sent := PCreated "Student added successfully" i |} /\
    In (Query (InsertStudent (@sanitize reference_library (body_name ann))
                 (@sanitize reference_library (body_email ann)) (body_age ann)))
       (new_events ann_world
          (snd (@post_students reference_library ann no_failure ann_world))) /\
    (forall req',
        @validator_isInt reference_library (params_id req') = true ->
        @sql_number reference_library (params_id req') = i ->
        fst (@get_student reference_library req' no_failure
               (snd (@post_students reference_library ann no_failure ann_world))) =
          inr {| status := 200; sent := PRow row |}) /\
    st_id row = i /\
    st_name row = @sanitize reference_library (body_name ann) /\
    st_email row = @sanitize reference_library (body_email ann) /\
    st_age row = @sql_integer reference_library (body_age ann) /\
    (forall n, body_age ann = JNum n -> age_json row = body_age ann) /\
    (forall s, body_age ann = JStr s ->
               age_json row = JNum (@sql_number reference_library s)).
Proof.
  apply (@create_then_get_round_trip reference_library ann no_failure no_failure
           ann_world); try reflexivity.
  intros n Hn. injection Hn as <-. reflexivity.
Defined.

(** C5, as stated, fails on an age given as text: [+007] passes the integer
    check, the create answers 201, and the get of the new id shows the age
    [7], which is not the input. *)
Lemma text_age_comes_back_as_a_number :
  @name_ok (body_name plus007) = true /\
  @email_ok reference_library (body_email plus007) = true /\
  @age_ok reference_library (body_age plus007) = true /\
  fst (@post_students reference_library plus007 no_failure ann_world) =
    inr {| status := 201; sent := PCreated "Student added successfully" 2 |} /\
  exists row,
    fst (@get_student reference_library (with_id "2" plus007) no_failure
           (snd (@post_students reference_library plus007 no_failure ann_world))) =
      inr {| status := 200; sent := PRow row |} /\
    st_email row = @sanitize reference_library (body_email plus007) /\
    age_json row = JNum 7 /\
    age_json row <> body_age plus007.
Proof.
  split; [reflexivity |]. split; [reflexivity |]. split; [reflexivity |].
  split; [reflexivity |].
  eexists. split; [reflexivity |]. split; [reflexivity |].
  split; [reflexivity | discriminate].
Qed.

Lemma say_without_keyword_calls_with_nothing_witness :
  exists r,
    new_events empty_world (snd (get_say ann no_failure empty_world)) =
      [HttpGet (azureFunctionBase ++ "nothing"); Respond r].
Proof.
  apply (say_without_keyword_calls_with_nothing ann no_failure empty_world).
  reflexivity.
Defined.

Lemma say_with_empty_keyword_is_say_without_witness :
  get_say (with_keyword (Some "") ann) no_failure empty_world =
    get_say ann no_failure empty_world /\
  exists r,
    new_events empty_world
      (snd (get_say (with_keyword (Some "") ann) no_failure empty_world)) =
      [HttpGet (azureFunctionBase ++ "nothing"); Respond r].
Proof.
  apply (say_with_empty_keyword_is_say_without
           (with_keyword (Some "") ann) ann no_failure empty_world);
    reflexivity.
Defined.

(** * More on the routes *)

Section Routes.
Context {L : Library}.

Ltac open_route :=
  unfold route, get_students, get_student, post_students, patch_student,
    delete_student, legacy_get_student, legacy_delete_student, get_say;
  rewrite ?id_rule_result, ?patch_rules_result, ?post_rules_result.

Ltac step_block :=
  unfold try_catch, bind, pool_getConnection, conn_query, conn_release,
    axios_get, res_json, res_status_json_id, throw, res_status_json, emit; cbn.

(** ** The four ways a request can go *)

Lemma rules_empty_iff_valid (op : operation) (req : request) :
  isEmpty (validationResult (rules op) req) = valid_for op req.
Proof.
  destruct op; unfold rules, valid_for;
    rewrite ?id_rule_result, ?patch_rules_result, ?post_rules_result,
      ?name_ok_passes; unfold email_ok, age_ok;
    repeat match goal with
           | |- context [if ?c then _ else _] => destruct c; cbn
           end; reflexivity.
Qed.

Lemma route_invalid (op : operation) (req : request) (E : env) (w : world) :
  valid_for op req = false ->
  route op req E w =
    res_status_json 400 (PErrors (validationResult (rules op) req)) E w.
Proof.
  intros Hv. rewrite <- rules_empty_iff_valid in Hv.
  destruct op; unfold route, get_students, get_student, post_students,
    patch_student, delete_student, rules in *;
    try discriminate; rewrite Hv; reflexivity.
Qed.

Lemma route_valid (op : operation) (req : request) (E : env) (w : world) :
  valid_for op req = true ->
  route op req E w =
    match connect_error E with
    | Some msg => res_status_json 500 (PError msg) E w
    | None =>
        let q := statement_of op req in
        match query_error E with
        | Some msg =>
            let r := {| status := 500; sent := PError msg |} in
            (inr r, ran w (students w) (S (in_use w))
                      [Acquire; Query q; Respond r])
        | None =>
            let r := answer_of op (snd (exec q (students w))) in
            (inr r, ran w (fst (exec q (students w))) (in_use w)
                      [Acquire; Query q; Release; Respond r])
        end
    end.
Proof.
  intros Hv. rewrite <- rules_empty_iff_valid in Hv.
  destruct op; unfold route, get_students, get_student, post_students,
    patch_student, delete_student, rules in *;
    rewrite ?Hv; cbn [negb];
    step_block; unfold ran;
    destruct (connect_error E); cbn; try reflexivity;
    destruct (query_error E); cbn;
    try match goal with
        | |- context [insertId_json_error] => destruct insertId_json_error; cbn
        end;
    rewrite <- ?app_assoc; reflexivity.
Qed.

Lemma new_events_ran (w : world) (d : database) (held : nat) (added : list event) :
  new_events w (ran w d held added) = added.
Proof. apply new_events_added. reflexivity. Qed.

Lemma new_events_respond (code : nat) (p : payload) (E : env) (w : world) :
  new_events w (snd (res_status_json code p E w)) =
    [Respond {| status := code; sent := p |}].
Proof. apply new_events_added. reflexivity. Qed.

(** X1: each of the five operations answers every request, and its events
    are one of three sequences: the response alone; a connection, the one
    statement of the route and the response; or the same with the release
    before the response.  No run takes two connections, sends two statements
    or answers twice. *)
Theorem one_statement_per_request :
  forall (op : operation) (req : request) (E : env) (w : world),
    exists r,
      fst (route op req E w) = inr r /\
      (new_events w (snd (route op req E w)) = [Respond r] \/
       new_events w (snd (route op req E w)) =
         [Acquire; Query (statement_of op req); Respond r] \/
       new_events w (snd (route op req E w)) =
         [Acquire; Query (statement_of op req); Release; Respond r]).
Proof.
  intros op req E w.
  destruct (valid_for op req) eqn:Hv.
  - rewrite (route_valid op req E w Hv).
    destruct (connect_error E) as [msg |].
    + eexists. split; [reflexivity |]. left. apply new_events_respond.
    + destruct (query_error E) as [msg |]; cbn.
      * eexists. split; [reflexivity |]. right; left. apply new_events_ran.
      * eexists. split; [reflexivity |]. right; right. apply new_events_ran.
  - rewrite (route_invalid op req E w Hv).
    eexists. split; [reflexivity |]. left. apply new_events_respond.
Qed.

(** X2: an operation takes a connection from the pool exactly when the
    request breaks no constraint of its route and the pool can give one. *)
Theorem storage_reached_iff_valid :
  forall (op : operation) (req : request) (E : env) (w : world),
    In Acquire (new_events w (snd (route op req E w))) <->
    valid_for op req = true /\ connect_error E = None.
Proof.
  intros op req E w.
  destruct (valid_for op req) eqn:Hv.
  - rewrite (route_valid op req E w Hv).
    destruct (connect_error E) as [msg |].
    + rewrite new_events_respond. cbn. intuition discriminate.
    + destruct (query_error E) as [msg |]; cbn; rewrite new_events_ran; cbn;
        intuition.
  - rewrite (route_invalid op req E w Hv), new_events_respond. cbn.
    intuition discriminate.
Qed.

(** X3: the status tells what happened.  It is 400 exactly when the request
    breaks a constraint of its route.  It is 500 exactly when the request is
    valid and the pool failed, or the statement failed, or (for a create) the
    storage client gave an [insertId] that [res.json] cannot serialize; the
    payload is then the message of that failure, as it was thrown. *)
Theorem status_tells_what_happened :
  forall (op : operation) (req : request) (E : env) (w : world) (r : response),
    fst (route op req E w) = inr r ->
    (status r = 400%nat <-> valid_for op req = false) /\
    (status r = 500%nat <->
       valid_for op req = true /\
       (connect_error E <> None \/ query_error E <> None \/
        (op = CreateStudent /\ insertId_json_error <> None))) /\
    (status r = 500%nat ->
       exists msg, sent r = PError msg /\
         (connect_error E = Some msg \/
          (connect_error E = None /\ query_error E = Some msg) \/
          (connect_error E = None /\ query_error E = None /\
           op = CreateStudent /\ insertId_json_error = Some msg))).
Proof.
  intros op req E w r.
  destruct (valid_for op req) eqn:Hv.
  - rewrite (route_valid op req E w Hv).
    destruct (connect_error E) as [msg |] eqn:Hc.
    + cbn. intros [= <-]. cbn. split; [| split].
      * split; intros H; discriminate H.
      * split; [intros _; split; [reflexivity | left; discriminate]
               | reflexivity].
      * intros _. exists msg. split; [reflexivity | left; reflexivity].
    + destruct (query_error E) as [msg |] eqn:Hq; cbn; intros [= <-].
      * cbn. split; [| split].
        -- split; intros H; discriminate H.
        -- split; [intros _; split; [reflexivity | right; left; discriminate]
                  | reflexivity].
        -- intros _. exists msg. split; [reflexivity |].
           right; left. split; reflexivity.
      * destruct op; cbn;
          try (split; [split; intros H; discriminate H |];
               split; [split; [intros H; discriminate H
                              | intros [_ [H | [H | [H _]]]]; congruence]
                      | intros H; discriminate H]).
        destruct insertId_json_error as [msg |] eqn:Hj; cbn.
        -- split; [split; intros H; discriminate H |].
           split; [split; [intros _; split; [reflexivity |] | reflexivity] |].
           ++ right; right. split; [reflexivity | discriminate].
           ++ intros _. exists msg. split; [reflexivity |].
              right; right. repeat split; reflexivity.
        -- split; [split; intros H; discriminate H |].
           split; [split; [intros H; discriminate H
                          | intros [_ [H | [H | [_ H]]]]; congruence]
                  | intros H; discriminate H].
  - rewrite (route_invalid op req E w Hv). cbn. intros [= <-]. cbn.
    split; [split; reflexivity |].
    split; [split; [intros H; discriminate H | intros [H _]; discriminate H]
           | intros H; discriminate H].
Qed.

(** X4: when the pool gives no connection, a valid request is answered 500
    with the message of the pool's error and nothing else happens: no
    statement is issued, the table and the pool are as they were. *)
Theorem connection_failure_touches_nothing :
  forall (op : operation) (req : request) (E : env) (w : world) (msg : string),
    valid_for op req = true ->
    connect_error E = Some msg ->
    only_responds {| status := 500; sent := PError msg |} w (route op req E w).
Proof.
  intros op req E w msg Hv Hc.
  rewrite (route_valid op req E w Hv), Hc. apply respond_only.
Qed.

(** ** Keys *)

Lemma filter_all {A : Type} (f : A -> bool) (l : list A) :
  (forall x, In x l -> f x = true) -> filter f l = l.
Proof.
  induction l as [| x l IH]; intros H; cbn; [reflexivity |].
  rewrite (H x (or_introl eq_refl)). f_equal. apply IH.
  intros y Hy. apply H. right. exact Hy.
Qed.

Lemma keys_of_filter (f : student -> bool) (l : list student) :
  NoDup (map st_id l) -> NoDup (map st_id (filter f l)).
Proof.
  induction l as [| r l IH]; cbn; intros Hnd; [exact Hnd |].
  inversion Hnd as [| k ks Hnotin Hrest]; subst.
  destruct (f r); cbn; [| apply IH; exact Hrest].
  constructor; [| apply IH; exact Hrest].
  intros Hin. apply Hnotin.
  apply in_map_iff in Hin. destruct Hin as [x [Hx Hxin]].
  apply filter_In in Hxin. apply in_map_iff. exists x. tauto.
Qed.

Lemma keys_of_update (e key : string) (l : list student) :
  map st_id (map (fun r => if id_is key r then set_email e r else r) l) =
  map st_id l.
Proof.
  rewrite map_map. apply map_ext. intros r. destruct (id_is key r); reflexivity.
Qed.

(** With unique keys, a key that is in the table selects its row and no
    other. *)
Lemma unique_key_selects (key : string) (l : list student) (r0 : student) :
  NoDup (map st_id l) -> In r0 l -> st_id r0 = sql_number key ->
  filter (id_is key) l = [r0].
Proof.
  induction l as [| r l IH]; intros Hnd Hin Hkey; [destruct Hin |].
  inversion Hnd as [| k ks Hnotin Hrest]; subst. cbn.
  destruct Hin as [-> | Hin].
  - unfold id_is at 1. rewrite Hkey, Z.eqb_refl. f_equal.
    apply no_row_for_key. intros x Hx Heq. apply Hnotin.
    rewrite Hkey, <- Heq. apply in_map. exact Hx.
  - unfold id_is at 1.
    destruct (Z.eqb_spec (st_id r) (sql_number key)) as [Heq | Hne].
    + exfalso. apply Hnotin. rewrite Heq, <- Hkey. apply in_map. exact Hin.
    + apply IH; assumption.
Qed.

Lemma exec_keeps_keys_unique (q : statement) (d : database) :
  db_wf d = true -> keys_unique d -> keys_unique (fst (exec q d)).
Proof.
  unfold keys_unique. intros Hwf Hnd.
  destruct q as [| key | n e a | e key | key]; cbn; try exact Hnd.
  - rewrite map_app. cbn. apply NoDup_app; [exact Hnd | |].
    + constructor; [intros [] | constructor].
    + intros k Hk [<- | []].
      apply in_map_iff in Hk. destruct Hk as [r [Hr Hin]].
      pose proof (wf_below d r Hwf Hin). lia.
  - rewrite keys_of_update. exact Hnd.
  - apply keys_of_filter. exact Hnd.
Qed.

Lemma route_changes_table_by_exec (op : operation) (req : request) (E : env) (w : world) :
  students (snd (route op req E w)) = students w \/
  students (snd (route op req E w)) = fst (exec (statement_of op req) (students w)).
Proof.
  destruct (valid_for op req) eqn:Hv.
  - rewrite (route_valid op req E w Hv).
    destruct (connect_error E); [left; reflexivity |].
    destruct (query_error E); [left | right]; reflexivity.
  - rewrite (route_invalid op req E w Hv). left. reflexivity.
Qed.

(** X5: the keys of the table stay unique and below the key counter through
    any sequence of requests, whatever each request is and however its
    storage calls end. *)
Theorem serving_keeps_keys_unique :
  forall (jobs : list (operation * request * env)) (w : world),
    db_wf (students w) = true ->
    keys_unique (students w) ->
    db_wf (students (serve jobs w)) = true /\
    keys_unique (students (serve jobs w)).
Proof.
  induction jobs as [| [[op req] E] later IH]; intros w Hwf Hnd; cbn;
    [split; assumption |].
  apply IH.
  - destruct (route_changes_table_by_exec op req E w) as [-> | ->];
      [exact Hwf | apply exec_keeps_wf; exact Hwf].
  - destruct (route_changes_table_by_exec op req E w) as [-> | ->];
      [exact Hnd | apply exec_keeps_keys_unique; assumption].
Qed.

Lemma counter_grows (op : operation) (req : request) (E : env) (w : world) :
  auto_increment (students w) <=
  auto_increment (students (snd (route op req E w))).
Proof.
  destruct (route_changes_table_by_exec op req E w) as [-> | ->]; [lia |].
  destruct op; cbn; lia.
Qed.

Lemma serve_counter_grows (jobs : list (operation * request * env)) :
  forall w, auto_increment (students w) <=
            auto_increment (students (serve jobs w)).
Proof.
  induction jobs as [| [[op req] E] later IH]; intros w; cbn; [lia |].
  pose proof (counter_grows op req E w). specialize (IH (snd (route op req E w))).
  lia.
Qed.

(** X6: an id is never handed out twice.  With a storage client whose
    [insertId] serializes, after a create that succeeded with id [i], and any
    sequence of requests (deletes of [i] included), a create that succeeds
    gets an id greater than [i]. *)
Theorem created_ids_are_never_reused :
  forall (req req' : request) (E E' : env) (w : world)
         (jobs : list (operation * request * env)),
    insertId_json_error = None ->
    valid_for CreateStudent req = true ->
    valid_for CreateStudent req' = true ->
    connect_error E = None -> query_error E = None ->
    connect_error E' = None -> query_error E' = None ->
    exists i i',
      fst (post_students req E w) =
        inr {| status := 201; sent := PCreated "Student added successfully" i |} /\
      fst (post_students req' E' (serve jobs (snd (post_students req E w)))) =
        inr {| status := 201; sent := PCreated "Student added successfully" i' |} /\
      i < i'.
Proof.
  intros req req' E E' w jobs Hj Hv Hv' Hc Hq Hc' Hq'.
  change (post_students req E w) with (route CreateStudent req E w).
  rewrite (route_valid CreateStudent req E w Hv), Hc, Hq. cbn [fst snd].
  set (w1 := ran w _ _ _).
  change (post_students req' E' (serve jobs w1))
    with (route CreateStudent req' E' (serve jobs w1)).
  rewrite (route_valid CreateStudent req' E' _ Hv'), Hc', Hq'. cbn [fst snd].
  unfold answer_of. rewrite Hj.
  do 2 eexists. split; [reflexivity |]. split; [reflexivity |].
  apply (Z.lt_le_trans _ (auto_increment (students w1)));
    [subst w1; cbn; lia | apply serve_counter_grows].
Qed.

(** ** The pool over many requests *)

(** X7: connections are only ever lost.  After any sequence of requests the
    pool has as many more connections in use as there were requests whose
    statement failed after a connection was taken; no later request gives
    such a connection back. *)
Theorem leaked_connections_accumulate :
  forall (jobs : list (operation * request * env)) (w : world),
    in_use (serve jobs w) =
      (in_use w +
       List.length (filter (fun j => leaks (fst (fst j)) (snd (fst j)) (snd j)) jobs))%nat.
Proof.
  induction jobs as [| [[op req] E] later IH]; intros w; cbn [serve].
  - cbn. lia.
  - rewrite IH. cbn [filter fst snd]. unfold leaks at 2.
    destruct (valid_for op req) eqn:Hv.
    + rewrite (route_valid op req E w Hv).
      destruct (connect_error E); cbn; [lia |].
      destruct (query_error E); cbn; lia.
    + rewrite (route_invalid op req E w Hv). cbn. lia.
Qed.

(** ** One operation after another *)

Lemma route_ok (op : operation) (req : request) (E : env) (w : world) :
  valid_for op req = true ->
  connect_error E = None -> query_error E = None ->
  route op req E w =
    (inr (answer_of op (snd (exec (statement_of op req) (students w)))),
     ran w (fst (exec (statement_of op req) (students w))) (in_use w)
       [Acquire; Query (statement_of op req); Release;
        Respond (answer_of op (snd (exec (statement_of op req) (students w))))]).
Proof.
  intros Hv Hc Hq. rewrite (route_valid op req E w Hv), Hc, Hq. reflexivity.
Qed.

Lemma same_key_same_rows (key key' : string) (l : list student) :
  sql_number key' = sql_number key ->
  filter (id_is key') l = filter (id_is key) l.
Proof.
  intros H. apply filter_ext. intros r. unfold id_is. rewrite H. reflexivity.
Qed.

Lemma select_after_update (e key : string) (l : list student) :
  filter (id_is key) (map (fun r => if id_is key r then set_email e r else r) l) =
  map (set_email e) (filter (id_is key) l).
Proof.
  induction l as [| r l IH]; cbn; [reflexivity |].
  destruct (id_is key r) eqn:Hr; cbn.
  - unfold id_is in *. cbn. rewrite Hr. f_equal. exact IH.
  - rewrite Hr. exact IH.
Qed.

Lemma update_again (e key : string) (l : list student) :
  map (fun r => if id_is key r then set_email e r else r)
      (map (fun r => if id_is key r then set_email e r else r) l) =
  map (fun r => if id_is key r then set_email e r else r) l.
Proof.
  rewrite map_map. apply map_ext. intros r.
  destruct (id_is key r) eqn:Hr; [| rewrite Hr; reflexivity].
  unfold id_is in *. cbn. rewrite Hr. reflexivity.
Qed.

Lemma update_none (e key : string) (l : list student) :
  (forall r, In r l -> st_id r <> sql_number key) ->
  map (fun r => if id_is key r then set_email e r else r) l = l.
Proof.
  intros H. rewrite <- (map_id l) at 2. apply map_ext_in. intros r Hr.
  unfold id_is. destruct (Z.eqb_spec (st_id r) (sql_number key)) as [Heq | _];
    [destruct (H r Hr Heq) | reflexivity].
Qed.

Lemma delete_none (key : string) (l : list student) :
  (forall r, In r l -> st_id r <> sql_number key) ->
  filter (fun r => negb (id_is key r)) l = l.
Proof.
  intros H. apply filter_all. intros r Hr. unfold id_is.
  apply negb_true_iff, Z.eqb_neq, H, Hr.
Qed.

Lemma delete_again (key : string) (l : list student) :
  filter (fun r => negb (id_is key r)) (filter (fun r => negb (id_is key r)) l) =
  filter (fun r => negb (id_is key r)) l.
Proof.
  apply filter_all. intros r Hr. apply filter_In in Hr. apply Hr.
Qed.

Lemma select_after_delete (key : string) (l : list student) :
  filter (id_is key) (filter (fun r => negb (id_is key r)) l) = [].
Proof.
  apply filter_none. intros r Hr. apply filter_In in Hr.
  destruct Hr as [_ Hr]. apply negb_true_iff in Hr. exact Hr.
Qed.

Lemma unique_key_selects_at_most_one (key : string) (l : list student) :
  NoDup (map st_id l) -> (List.length (filter (id_is key) l) <= 1)%nat.
Proof.
  intros Hnd. destruct (filter (id_is key) l) as [| r0 rest] eqn:Hf; [cbn; lia |].
  assert (Hin : In r0 (filter (id_is key) l)) by (rewrite Hf; left; reflexivity).
  apply filter_In in Hin. destruct Hin as [Hin Hid].
  unfold id_is in Hid. apply Z.eqb_eq in Hid.
  rewrite (unique_key_selects key l r0 Hnd Hin Hid) in Hf.
  inversion Hf. cbn. lia.
Qed.

(** X8: after a create that succeeded with id [i] (the storage client's
    [insertId] serializing), the list operation answers 200 with the rows
    that were there and one new row: id [i], the sanitized name and email,
    the age; the order is the one storage gives them in. *)
Theorem create_then_list_shows_new_row :
  forall (req req' : request) (E E' : env) (w : world),
    insertId_json_error = None ->
    valid_for CreateStudent req = true ->
    connect_error E = None -> query_error E = None ->
    connect_error E' = None -> query_error E' = None ->
    exists i listed,
      fst (post_students req E w) =
        inr {| status := 201; sent := PCreated "Student added successfully" i |} /\
      fst (get_students req' E' (snd (post_students req E w))) =
        inr {| status := 200; sent := PRows listed |} /\
      Permutation listed
        ({| st_id := i;
            st_name := sanitize (body_name req);
            st_email := sanitize (body_email req);
            st_age := sql_integer (body_age req) |} :: rows (students w)).
Proof.
  intros req req' E E' w Hj Hv Hc Hq Hc' Hq'.
  change (post_students req E w) with (route CreateStudent req E w).
  rewrite (route_ok CreateStudent req E w Hv Hc Hq). cbn [fst snd].
  change (get_students req' E') with (route ListStudents req' E').
  rewrite (route_ok ListStudents req' E' _ eq_refl Hc' Hq').
  unfold answer_of. rewrite Hj.
  do 2 eexists. split; [reflexivity |]. split; [reflexivity |].
  cbn. apply Permutation_sym, Permutation_cons_append.
Qed.

(** X9: get-by-id answers with the stored row, as it is stored.  When the
    keys of the table are unique and a row has the id of the path, the answer
    is 200 with that very row. *)
Theorem get_returns_the_stored_row :
  forall (req : request) (E : env) (w : world) (r0 : student),
    keys_unique (students w) ->
    In r0 (rows (students w)) ->
    st_id r0 = sql_number (params_id req) ->
    validator_isInt (params_id req) = true ->
    connect_error E = None -> query_error E = None ->
    fst (get_student req E w) = inr {| status := 200; sent := PRow r0 |}.
Proof.
  intros req E w r0 Hnd Hin Hkey Hid Hc Hq.
  change (get_student req E w) with (route GetStudent req E w).
  rewrite (route_ok GetStudent req E w Hid Hc Hq). cbn.
  rewrite (unique_key_selects _ _ r0 Hnd Hin Hkey). reflexivity.
Qed.

(** X10: a deleted student cannot be got.  After a delete that succeeded, a
    get-by-id of the same id answers 200 with
    [{message: "Student not found"}]. *)
Theorem delete_then_get_not_found :
  forall (req req' : request) (E E' : env) (w : world),
    validator_isInt (params_id req) = true ->
    validator_isInt (params_id req') = true ->
    sql_number (params_id req') = sql_number (params_id req) ->
    connect_error E = None -> query_error E = None ->
    connect_error E' = None -> query_error E' = None ->
    fst (delete_student req E w) =
      inr {| status := 200; sent := PMessage "Student deleted successfully" |} /\
    fst (get_student req' E' (snd (delete_student req E w))) =
      inr {| status := 200; sent := PMessage "Student not found" |}.
Proof.
  intros req req' E E' w Hid Hid' Hsame Hc Hq Hc' Hq'.
  change (delete_student req E w) with (route DeleteStudent req E w).
  rewrite (route_ok DeleteStudent req E w Hid Hc Hq). cbn [fst snd].
  split; [reflexivity |].
  change (get_student req' E') with (route GetStudent req' E').
  rewrite (route_ok GetStudent req' E' _ Hid' Hc' Hq'). cbn.
  rewrite (same_key_same_rows _ _ _ Hsame), select_after_delete. reflexivity.
Qed.

(** X11: a delete that succeeded removed the rows with the id of the path and
    no other: a row is in the table afterwards exactly when it was there
    before with another id.  The key counter stays, and with unique keys at
    most one row is gone. *)
Theorem delete_removes_exactly_the_matching_rows :
  forall (req : request) (E : env) (w : world),
    validator_isInt (params_id req) = true ->
    connect_error E = None -> query_error E = None ->
    (forall r,
        In r (rows (students (snd (delete_student req E w)))) <->
        In r (rows (students w)) /\ st_id r <> sql_number (params_id req)) /\
    auto_increment (students (snd (delete_student req E w))) =
      auto_increment (students w) /\
    (keys_unique (students w) ->
     (List.length (rows (students w)) <=
      S (List.length (rows (students (snd (delete_student req E w))))))%nat).
Proof.
  intros req E w Hid Hc Hq.
  change (delete_student req E w) with (route DeleteStudent req E w).
  rewrite (route_ok DeleteStudent req E w Hid Hc Hq). cbn.
  split; [| split; [reflexivity |]].
  - intros r. rewrite filter_In. unfold id_is.
    rewrite negb_true_iff, Z.eqb_neq. reflexivity.
  - intros Hnd.
    pose proof (filter_length (id_is (params_id req)) (rows (students w))) as Hlen.
    pose proof (unique_key_selects_at_most_one (params_id req) _ Hnd). lia.
Qed.

(** X12: deleting twice is deleting once.  A second delete of the same id
    answers the same confirmation and leaves the table the first delete
    left. *)
Theorem delete_twice_is_delete_once :
  forall (req : request) (E E' : env) (w : world),
    validator_isInt (params_id req) = true ->
    connect_error E = None -> query_error E = None ->
    connect_error E' = None -> query_error E' = None ->
    fst (delete_student req E' (snd (delete_student req E w))) =
      inr {| status := 200; sent := PMessage "Student deleted successfully" |} /\
    students (snd (delete_student req E' (snd (delete_student req E w)))) =
      students (snd (delete_student req E w)).
Proof.
  intros req E E' w Hid Hc Hq Hc' Hq'.
  change (delete_student req E w) with (route DeleteStudent req E w).
  rewrite (route_ok DeleteStudent req E w Hid Hc Hq). cbn [fst snd].
  change (delete_student req E') with (route DeleteStudent req E').
  rewrite (route_ok DeleteStudent req E' _ Hid Hc' Hq'). cbn.
  split; [reflexivity |]. rewrite delete_again. reflexivity.
Qed.

(** X13: an updated email is the one a get shows.  With unique keys, after an
    update-email that succeeded on the id of a stored row, get-by-id of that
    id answers 200 with that row, its email replaced by the sanitized new
    one and nothing else changed. *)
Theorem update_then_get_shows_new_email :
  forall (req req' : request) (E E' : env) (w : world) (r0 : student),
    keys_unique (students w) ->
    In r0 (rows (students w)) ->
    st_id r0 = sql_number (params_id req) ->
    valid_for UpdateStudentEmail req = true ->
    validator_isInt (params_id req') = true ->
    sql_number (params_id req') = sql_number (params_id req) ->
    connect_error E = None -> query_error E = None ->
    connect_error E' = None -> query_error E' = None ->
    fst (get_student req' E' (snd (patch_student req E w))) =
      inr {| status := 200;
             sent := PRow {| st_id := st_id r0; st_name := st_name r0;
                             st_email := sanitize (body_email req);
                             st_age := st_age r0 |} |}.
Proof.
  intros req req' E E' w r0 Hnd Hin Hkey Hv Hid' Hsame Hc Hq Hc' Hq'.
  change (patch_student req E w) with (route UpdateStudentEmail req E w).
  rewrite (route_ok UpdateStudentEmail req E w Hv Hc Hq). cbn [fst snd].
  change (get_student req' E') with (route GetStudent req' E').
  rewrite (route_ok GetStudent req' E' _ Hid' Hc' Hq'). cbn.
  rewrite (same_key_same_rows _ _ _ Hsame), select_after_update.
  rewrite (unique_key_selects _ _ r0 Hnd Hin Hkey). reflexivity.
Qed.

(** X14: update-email and delete do not tell a missing row from a present
    one.  When no row has the id of the path, both answer their 200
    confirmation and the table is exactly as it was. *)
Theorem unknown_id_update_and_delete_change_nothing :
  forall (req : request) (E : env) (w : world),
    (forall r, In r (rows (students w)) -> st_id r <> sql_number (params_id req)) ->
    connect_error E = None -> query_error E = None ->
    (valid_for UpdateStudentEmail req = true ->
     fst (patch_student req E w) =
       inr {| status := 200; sent := PMessage "Student email updated successfully" |} /\
     students (snd (patch_student req E w)) = students w) /\
    (validator_isInt (params_id req) = true ->
     fst (delete_student req E w) =
       inr {| status := 200; sent := PMessage "Student deleted successfully" |} /\
     students (snd (delete_student req E w)) = students w).
Proof.
  intros req E w Hnone Hc Hq. split; intros Hv.
  - change (patch_student req E w) with (route UpdateStudentEmail req E w).
    rewrite (route_ok UpdateStudentEmail req E w Hv Hc Hq). cbn.
    split; [reflexivity |]. rewrite (update_none _ _ _ Hnone).
    destruct (students w); reflexivity.
  - change (delete_student req E w) with (route DeleteStudent req E w).
    rewrite (route_ok DeleteStudent req E w Hv Hc Hq). cbn.
    split; [reflexivity |]. rewrite (delete_none _ _ Hnone).
    destruct (students w); reflexivity.
Qed.

(** X15: updating an email twice with the same request is updating it once:
    the table after the second update is the table after the first. *)
Theorem update_twice_is_update_once :
  forall (req : request) (E E' : env) (w : world),
    valid_for UpdateStudentEmail req = true ->
    connect_error E = None -> query_error E = None ->
    connect_error E' = None -> query_error E' = None ->
    students (snd (patch_student req E' (snd (patch_student req E w)))) =
      students (snd (patch_student req E w)).
Proof.
  intros req E E' w Hv Hc Hq Hc' Hq'.
  change (patch_student req E w) with (route UpdateStudentEmail req E w).
  rewrite (route_ok UpdateStudentEmail req E w Hv Hc Hq). cbn [fst snd].
  change (patch_student req E') with (route UpdateStudentEmail req E').
  rewrite (route_ok UpdateStudentEmail req E' _ Hv Hc' Hq'). cbn.
  rewrite update_again. reflexivity.
Qed.

(** ** What a rejected request is told *)

(** X21: update-email checks both fields before it answers.  A request that
    breaks a constraint is answered 400 with the error of the id, if the id is
    not an integer, followed by the error of the email, if the email is not
    valid; nothing else happens. *)
Theorem update_email_reports_both_fields :
  forall (req : request) (E : env) (w : world),
    valid_for UpdateStudentEmail req = false ->
    only_responds
      {| status := 400;
         sent := PErrors
           ((if validator_isInt (params_id req) then [] else [id_error]) ++
            (if validator_isEmail (toString (body_email req)) then []
             else [email_error])) |}
      w (patch_student req E w).
Proof.
  intros req E w Hv.
  change (patch_student req E w) with (route UpdateStudentEmail req E w).
  rewrite (route_invalid UpdateStudentEmail req E w Hv).
  unfold rules. rewrite patch_rules_result. apply respond_only.
Qed.

(** X22: the errors of a rejected create come in the order name, email, age,
    each validator that failed giving one.  A name that is not a text is
    reported with the default message [Invalid value], since the message
    [Name is required] belongs to the emptiness check alone; an absent name
    fails both checks and is reported twice. *)
Theorem create_reports_each_failed_check :
  forall (req : request) (E : env) (w : world),
    valid_for CreateStudent req = false ->
    only_responds
      {| status := 400;
         sent := PErrors
           ((match body_name req with JStr _ => [] | _ => [name_type_error] end) ++
            (if (toString (body_name req) =? "")%string then [name_error] else []) ++
            (if validator_isEmail (toString (body_email req)) then []
             else [email_error]) ++
            (if validator_isInt (toString (body_age req)) then []
             else [age_error])) |}
      w (post_students req E w).
Proof.
  intros req E w Hv.
  change (post_students req E w) with (route CreateStudent req E w).
  rewrite (route_invalid CreateStudent req E w Hv).
  unfold rules. rewrite post_rules_result.
  replace (if passes IsString (body_name req) then [] else [name_type_error])
    with (match body_name req with JStr _ => [] | _ => [name_type_error] end)
    by (destruct (body_name req); reflexivity).
  replace (if passes NotEmpty (body_name req) then [] else [name_error])
    with (if (toString (body_name req) =? "")%string then [name_error] else [])
    by (cbn; destruct (toString (body_name req) =? "")%string; reflexivity).
  apply respond_only.
Qed.

(** ** The proxy and the remote function *)

(** X16: the proxy keeps away from storage and hides the remote error.  A
    [GET /say] makes one remote call and answers once; the table and the pool
    are as they were.  It answers 200 with the remote body as it came, or,
    whatever made the call fail, 500 with the fixed message
    [Error calling Azure Function]. *)
Theorem say_relays_body_and_hides_remote_errors :
  forall (req : request) (E : env) (w : world),
    exists url r,
      fst (get_say req E w) = inr r /\
      new_events w (snd (get_say req E w)) = [HttpGet url; Respond r] /\
      students (snd (get_say req E w)) = students w /\
      in_use (snd (get_say req E w)) = in_use w /\
      (forall data, remote E url = inr data ->
                    r = {| status := 200; sent := PData data |}) /\
      (forall err, remote E url = inl err ->
                   r = {| status := 500;
                          sent := PError "Error calling Azure Function" |}).
Proof.
  intros req E w.
  remember (azureFunctionBase ++ keyword_or_nothing (query_keyword req))%string
    as url eqn:Hurl.
  assert (Hrun : get_say req E w =
            match remote E url with
            | inr data =>
                (inr {| status := 200; sent := PData data |},
                 ran w (students w) (in_use w)
                   [HttpGet url;
                    Respond {| status := 200; sent := PData data |}])
            | inl _ =>
                (inr {| status := 500;
                        sent := PError "Error calling Azure Function" |},
                 ran w (students w) (in_use w)
                   [HttpGet url;
                    Respond {| status := 500;
                               sent := PError "Error calling Azure Function" |}])
            end).
  { subst url. unfold get_say, try_catch, bind, axios_get, res_json,
      res_status_json, emit, ran.
    destruct (remote E _); cbn; rewrite <- app_assoc; reflexivity. }
  exists url. rewrite Hrun.
  destruct (remote E url) as [err | data]; eexists;
    (split; [reflexivity |]);
    (split; [apply new_events_ran |]);
    (split; [reflexivity |]); (split; [reflexivity |]);
    split; intros x Hx; inversion Hx; reflexivity.
Qed.

(** X17: a keyword that is not empty goes into the address as it is, with no
    encoding: the remote call is to the fixed address followed by the
    keyword. *)
Theorem say_forwards_keyword_verbatim :
  forall (req : request) (E : env) (w : world) (k : string),
    query_keyword req = Some k ->
    k <> ""%string ->
    exists r,
      new_events w (snd (get_say req E w)) =
        [HttpGet (azureFunctionBase ++ k); Respond r].
Proof.
  intros req E w k Hk Hne. open_route. rewrite Hk. cbn.
  destruct (String.eqb_spec k "") as [Heq | _]; [contradiction |].
  step_block.
  destruct (remote E _) as [err | data]; cbn; eexists;
    apply new_events_added; cbn; rewrite <- app_assoc; reflexivity.
Qed.

(** ** The earlier version of the routes *)

(** X19: on an id the validator accepts, get-by-id and delete run exactly as
    their earlier versions did: same answer, same world. *)
Theorem validation_is_the_only_change_to_get_and_delete :
  forall (req : request) (E : env) (w : world),
    validator_isInt (params_id req) = true ->
    get_student req E w = legacy_get_student req E w /\
    delete_student req E w = legacy_delete_student req E w.
Proof.
  intros req E w Hid. open_route. rewrite Hid. split; reflexivity.
Qed.

(** X20: on an id the validator refuses, the delete route leaves the table as
    it was, where its earlier version sent the id to storage and removed the
    rows whose key is the number storage reads in that text. *)
Theorem legacy_delete_took_any_id :
  forall (req : request) (E : env) (w : world),
    validator_isInt (params_id req) = false ->
    connect_error E = None -> query_error E = None ->
    students (snd (delete_student req E w)) = students w /\
    In (Query (DeleteById (params_id req)))
       (new_events w (snd (legacy_delete_student req E w))) /\
    (forall r,
        In r (rows (students (snd (legacy_delete_student req E w)))) <->
        In r (rows (students w)) /\ st_id r <> sql_number (params_id req)).
Proof.
  intros req E w Hid Hc Hq. split; [| split].
  - change (delete_student req E w) with (route DeleteStudent req E w).
    rewrite (route_invalid DeleteStudent req E w Hid). reflexivity.
  - open_route. step_block. rewrite Hc, Hq. cbn.
    erewrite new_events_added by (cbn; rewrite <- !app_assoc; reflexivity).
    right; left; reflexivity.
  - intros r. open_route. step_block. rewrite Hc, Hq. cbn.
    rewrite filter_In. unfold id_is.
    rewrite negb_true_iff, Z.eqb_neq. reflexivity.
Qed.

End Routes.

Lemma substring_head (a b : string) :
  substring 0 (String.length a) (a ++ b) = a.
Proof.
  induction a as [| c a IH]; cbn.
  - destruct b; reflexivity.
  - rewrite IH. reflexivity.
Qed.

Lemma azure_remote_at_its_address (k : string) :
  azure_remote (azureFunctionBase ++ k) =
    inr ("Shashankh says " ++ double_quote ++ "nothing" ++ double_quote)%string.
Proof.
  unfold azure_remote. cbv zeta.
  rewrite substring_head, String.eqb_refl. reflexivity.
Qed.

(** X18: the keyword never reaches the answer.  The remote function reads the
    keyword as a property of its query, which has none, and a [GET] has no
    body; so when the remote function is the one of this repository, the
    proxy answers 200 with [Shashankh says "nothing"] whatever keyword it was
    asked with. *)
Theorem say_always_relays_nothing :
  forall (req : request) (E : env) (w : world),
    (forall url, remote E url = azure_remote url) ->
    fst (get_say req E w) =
      inr {| status := 200;
             sent := PData ("Shashankh says " ++ double_quote ++ "nothing" ++
                            double_quote) |}.
Proof.
  intros req E w Hremote.
  unfold get_say, try_catch, bind, axios_get, res_json, res_status_json, emit.
  cbv zeta. rewrite Hremote, azure_remote_at_its_address. reflexivity.
Qed.

(** ** More results on sample requests *)

Lemma ann_world_keys_unique : keys_unique (students ann_world).
Proof.
  unfold keys_unique. cbn. constructor; [intros [] | constructor].
Defined.

Lemma status_tells_what_happened_witness :
  fst (@route bigint_library CreateStudent ann no_failure ann_world) =
    inr {| status := 500;
           sent := PError "Do not know how to serialize a BigInt" |} /\
  ((500%nat = 400%nat <-> @valid_for bigint_library CreateStudent ann = false) /\
   (500%nat = 500%nat <->
      @valid_for bigint_library CreateStudent ann = true /\
      (connect_error no_failure <> None \/ query_error no_failure <> None \/
       (CreateStudent = CreateStudent /\
        @insertId_json_error bigint_library <> None))) /\
   (500%nat = 500%nat ->
      exists msg,
        PError "Do not know how to serialize a BigInt" = PError msg /\
        (connect_error no_failure = Some msg \/
         (connect_error no_failure = None /\ query_error no_failure = Some msg) \/
         (connect_error no_failure = None /\ query_error no_failure = None /\
          CreateStudent = CreateStudent /\
          @insertId_json_error bigint_library = Some msg)))).
Proof.
  split; [reflexivity |].
  apply (@status_tells_what_happened bigint_library CreateStudent ann
           no_failure ann_world
           {| status := 500;
              sent := PError "Do not know how to serialize a BigInt" |}).
  reflexivity.
Defined.

Lemma connection_failure_touches_nothing_witness :
  only_responds {| status := 500; sent := PError "ECONNREFUSED" |} ann_world
    (@route reference_library CreateStudent bob (connect_fails "ECONNREFUSED")
       ann_world).
Proof.
  apply (@connection_failure_touches_nothing reference_library CreateStudent bob
           (connect_fails "ECONNREFUSED") ann_world "ECONNREFUSED");
    reflexivity.
Defined.

Lemma serving_keeps_keys_unique_witness :
  db_wf (students (@serve reference_library sample_jobs ann_world)) = true /\
  keys_unique (students (@serve reference_library sample_jobs ann_world)).
Proof.
  apply (@serving_keeps_keys_unique reference_library sample_jobs ann_world).
  - reflexivity.
  - exact ann_world_keys_unique.
Defined.

Lemma created_ids_are_never_reused_witness :
  exists i i',
    fst (@post_students reference_library bob no_failure ann_world) =
      inr {| status := 201; sent := PCreated "Student added successfully" i |} /\
    fst (@post_students reference_library ann no_failure
           (@serve reference_library
              [(DeleteStudent, with_id "2" ann, no_failure)]
              (snd (@post_students reference_library bob no_failure ann_world)))) =
      inr {| status := 201; sent := PCreated "Student added successfully" i' |} /\
    i < i'.
Proof.
  apply (@created_ids_are_never_reused reference_library bob ann no_failure
           no_failure ann_world [(DeleteStudent, with_id "2" ann, no_failure)]);
    reflexivity.
Defined.

Lemma create_then_list_shows_new_row_witness :
  exists i listed,
    fst (@post_students reference_library bob no_failure ann_world) =
      inr {| status := 201; sent := PCreated "Student added successfully" i |} /\
    fst (@get_students reference_library ann no_failure
           (snd (@post_students reference_library bob no_failure ann_world))) =
      inr {| status := 200; sent := PRows listed |} /\
    Permutation listed
      ({| st_id := i;
          st_name := @sanitize reference_library (body_name bob);
          st_email := @sanitize reference_library (body_email bob);
          st_age := @sql_integer reference_library (body_age bob) |}
       :: rows (students ann_world)).
Proof.
  apply (@create_then_list_shows_new_row reference_library bob ann no_failure
           no_failure ann_world); reflexivity.
Defined.

Lemma get_returns_the_stored_row_witness :
  fst (@get_student reference_library (with_id "+01" ann) no_failure ann_world) =
    inr {| status := 200; sent := PRow ann_row |}.
Proof.
  apply (@get_returns_the_stored_row reference_library (with_id "+01" ann)
           no_failure ann_world ann_row).
  - exact ann_world_keys_unique.
  - left. reflexivity.
  - reflexivity.
  - reflexivity.
  - reflexivity.
  - reflexivity.
Defined.

Lemma delete_then_get_not_found_witness :
  fst (@delete_student reference_library (with_id "1" ann) no_failure ann_world) =
    inr {| status := 200; sent := PMessage "Student deleted successfully" |} /\
  fst (@get_student reference_library (with_id "01" ann) no_failure
         (snd (@delete_student reference_library (with_id "1" ann) no_failure
                 ann_world))) =
    inr {| status := 200; sent := PMessage "Student not found" |}.
Proof.
  apply (@delete_then_get_not_found reference_library (with_id "1" ann)
           (with_id "01" ann) no_failure no_failure ann_world); reflexivity.
Defined.

Lemma delete_removes_exactly_the_matching_rows_witness :
  (forall r,
      In r (rows (students (snd (@delete_student reference_library
                                   (with_id "1" ann) no_failure ann_world)))) <->
      In r (rows (students ann_world)) /\
      st_id r <> @sql_number reference_library (params_id (with_id "1" ann))) /\
  auto_increment (students (snd (@delete_student reference_library
                                   (with_id "1" ann) no_failure ann_world))) =
    auto_increment (students ann_world) /\
  (keys_unique (students ann_world) ->
   (List.length (rows (students ann_world)) <=
    S (List.length (rows (students (snd (@delete_student reference_library
                                          (with_id "1" ann) no_failure
                                          ann_world))))))%nat).
Proof.
  apply (@delete_removes_exactly_the_matching_rows reference_library
           (with_id "1" ann) no_failure ann_world); reflexivity.
Defined.

Lemma delete_twice_is_delete_once_witness :
  fst (@delete_student reference_library (with_id "1" ann) no_failure
         (snd (@delete_student reference_library (with_id "1" ann) no_failure
                 ann_world))) =
    inr {| status := 200; sent := PMessage "Student deleted successfully" |} /\
  students (snd (@delete_student reference_library (with_id "1" ann) no_failure
                   (snd (@delete_student reference_library (with_id "1" ann)
                           no_failure ann_world)))) =
    students (snd (@delete_student reference_library (with_id "1" ann) no_failure
                     ann_world)).
Proof.
  apply (@delete_twice_is_delete_once reference_library (with_id "1" ann)
           no_failure no_failure ann_world); reflexivity.
Defined.

Lemma update_then_get_shows_new_email_witness :
  fst (@get_student reference_library (with_id "1" ann) no_failure
         (snd (@patch_student reference_library (with_id "1" bob) no_failure
                 ann_world))) =
    inr {| status := 200;
           sent := PRow {| st_id := st_id ann_row; st_name := st_name ann_row;
                           st_email := @sanitize reference_library
                                         (body_email (with_id "1" bob));
                           st_age := st_age ann_row |} |}.
Proof.
  apply (@update_then_get_shows_new_email reference_library (with_id "1" bob)
           (with_id "1" ann) no_failure no_failure ann_world ann_row);
    try reflexivity.
  - exact ann_world_keys_unique.
  - left. reflexivity.
Defined.

Lemma unknown_id_update_and_delete_change_nothing_witness :
  (@valid_for reference_library UpdateStudentEmail bob = true ->
   fst (@patch_student reference_library bob no_failure ann_world) =
     inr {| status := 200; sent := PMessage "Student email updated successfully" |} /\
   students (snd (@patch_student reference_library bob no_failure ann_world)) =
     students ann_world) /\
  (@validator_isInt reference_library (params_id bob) = true ->
   fst (@delete_student reference_library bob no_failure ann_world) =
     inr {| status := 200; sent := PMessage "Student deleted successfully" |} /\
   students (snd (@delete_student reference_library bob no_failure ann_world)) =
     students ann_world).
Proof.
  apply (@unknown_id_update_and_delete_change_nothing reference_library bob
           no_failure ann_world); try reflexivity.
  intros r [<- | []]. cbn. discriminate.
Defined.

Lemma update_twice_is_update_once_witness :
  students (snd (@patch_student reference_library (with_id "1" bob) no_failure
                   (snd (@patch_student reference_library (with_id "1" bob)
                           no_failure ann_world)))) =
    students (snd (@patch_student reference_library (with_id "1" bob) no_failure
                     ann_world)).
Proof.
  apply (@update_twice_is_update_once reference_library (with_id "1" bob)
           no_failure no_failure ann_world); reflexivity.
Defined.

Lemma say_forwards_keyword_verbatim_witness :
  exists r,
    new_events empty_world (snd (get_say bob remote_down empty_world)) =
      [HttpGet (azureFunctionBase ++ "hello"); Respond r].
Proof.
  apply (say_forwards_keyword_verbatim bob remote_down empty_world "hello").
  - reflexivity.
  - discriminate.
Defined.

Lemma validation_is_the_only_change_to_get_and_delete_witness :
  @get_student reference_library (with_id "1" ann) no_failure ann_world =
    @legacy_get_student reference_library (with_id "1" ann) no_failure ann_world /\
  @delete_student reference_library (with_id "1" ann) no_failure ann_world =
    @legacy_delete_student reference_library (with_id "1" ann) no_failure ann_world.
Proof.
  apply (@validation_is_the_only_change_to_get_and_delete reference_library
           (with_id "1" ann) no_failure ann_world).
  reflexivity.
Defined.

Lemma legacy_delete_took_any_id_witness :
  rows (students (snd (@legacy_delete_student reference_library
                         (with_id "1abc" ann) no_failure ann_world))) = [] /\
  students (snd (@delete_student reference_library (with_id "1abc" ann)
                   no_failure ann_world)) = students ann_world /\
  In (Query (DeleteById (params_id (with_id "1abc" ann))))
     (new_events ann_world
        (snd (@legacy_delete_student reference_library (with_id "1abc" ann)
                no_failure ann_world))) /\
  (forall r,
      In r (rows (students (snd (@legacy_delete_student reference_library
                                   (with_id "1abc" ann) no_failure ann_world)))) <->
      In r (rows (students ann_world)) /\
      st_id r <> @sql_number reference_library (params_id (with_id "1abc" ann))).
Proof.
  split; [reflexivity |].
  apply (@legacy_delete_took_any_id reference_library (with_id "1abc" ann)
           no_failure ann_world); reflexivity.
Defined.

Lemma update_email_reports_both_fields_witness :
  only_responds
    {| status := 400; sent := PErrors [id_error; email_error] |}
    ann_world
    (@patch_student reference_library (with_id "one" broken_create) no_failure
       ann_world).
Proof.
  apply (@update_email_reports_both_fields reference_library
           (with_id "one" broken_create) no_failure ann_world).
  reflexivity.
Defined.

Lemma create_reports_each_failed_check_witness :
  only_responds
    {| status := 400;
       sent := PErrors [name_type_error; name_error; email_error; age_error] |}
    ann_world
    (@post_students reference_library nameless_create no_failure ann_world).
Proof.
  apply (@create_reports_each_failed_check reference_library nameless_create
           no_failure ann_world).
  reflexivity.
Defined.

Lemma say_always_relays_nothing_witness :
  fst (get_say bob no_failure empty_world) =
    inr {| status := 200;
           sent := PData ("Shashankh says " ++ double_quote ++ "nothing" ++
                          double_quote) |}.
Proof.
  apply (say_always_relays_nothing bob no_failure empty_world).
  intros url. reflexivity.
Defined.
